(** * sangreal_db.core.database: the [DataBase] facade

    A shallow embedding of [src/sangreal_db/core/database.py].

    The facade is a Python object whose attribute reads are intercepted
    ([__getattribute__] / [__getattr__]) to resolve table names lazily.
    The embedding keeps the instance [__dict__] as a finite map, the mapped
    classes built by the auto-mapper as a heap addressed by identity, and
    threads both through a small state-and-exception monad.  Calls made to
    the external collaborators (metadata reflection, session execution) are
    recorded in a trace so that statements about "how often" and "never
    reached" can be stated. *)

From stdpp Require Import base option list gmap strings.
From Stdlib Require Import Ascii.

Local Open Scope string_scope.
Local Open Scope list_scope.

(** ** Python strings: [str.lower] and [str.upper] on the ASCII range *)

Definition lower_ascii (c : ascii) : ascii :=
  let n := nat_of_ascii c in
  if (65 <=? n)%nat && (n <=? 90)%nat then ascii_of_nat (n + 32) else c.

Definition upper_ascii (c : ascii) : ascii :=
  let n := nat_of_ascii c in
  if (97 <=? n)%nat && (n <=? 122)%nat then ascii_of_nat (n - 32) else c.

Fixpoint lower (s : string) : string :=
  match s with
  | EmptyString => EmptyString
  | String c s' => String (lower_ascii c) (lower s')
  end.

Fixpoint upper (s : string) : string :=
  match s with
  | EmptyString => EmptyString
  | String c s' => String (upper_ascii c) (upper s')
  end.

(** ** The external database, as the reflection collaborator reports it *)

(** An index of a table: [i.name], [i.unique]. *)
Record index := Index { iname : string; unique : bool }.

(** A table constraint; [name] is [None] for an unnamed constraint. *)
Record constraint := Constraint { cname : option string }.

(** A table of the live schema.  [indexes] and [constraints] are listed in
    the order in which iterating [table.__table__.indexes] and
    [list(table.__table__.constraints)] yields them. *)
Record table_decl := Table {
  tname : string;
  columns : list string;
  primary_key : list string;
  indexes : list index;
  constraints : list constraint
}.

(** An engine: [bind.dialect.name] and, per schema, the tables that
    introspection reports. *)
Record engine := Engine {
  dialect_name : string;
  db_tables : option string → list table_decl
}.

(** ** Python values held by the facade *)

Inductive value :=
| VNone                       (* None *)
| VStr (s : string)           (* a str; the placeholder is the str 'None' *)
| VNames (l : list string)    (* a list of str: [self.tables] *)
| VEngine (e : engine)        (* the bound engine *)
| VMetaData                   (* the MetaData object of the binding *)
| VBase                       (* the declarative base *)
| VSession                    (* the SangrealSession *)
| VMethod (name : string)     (* a bound method of the facade *)
| VClass (a : nat).           (* a mapped class, by object identity *)

(** [x == 'None'] *)
Definition is_placeholder (v : value) : bool :=
  match v with
  | VStr s => bool_decide (s = "None")
  | _ => false
  end.

(** ** Mapped classes (row handles) *)

(** An entry of a mapped class's [__dict__]: an [InstrumentedAttribute]
    (identified by the class that owns it and its key) or anything else. *)
Inductive cattr :=
| InstrumentedAttribute (owner : nat) (key : string)
| Plain.

Record class_obj := Class {
  cls_table : table_decl;              (* [cls.__table__] *)
  cls_dict : list (string * cattr)     (* [cls.__dict__], in key order *)
}.

(** [isinstance(c, InstrumentedAttribute)] *)
Definition is_instrumented (c : cattr) : bool :=
  match c with InstrumentedAttribute _ _ => true | Plain => false end.

Fixpoint assoc_get {A} (k : string) (l : list (string * A)) : option A :=
  match l with
  | [] => None
  | (k', v) :: l' => if bool_decide (k' = k) then Some v else assoc_get k l'
  end.

(** Python dict assignment: an existing key keeps its position. *)
Fixpoint assoc_set {A} (k : string) (v : A) (l : list (string * A))
  : list (string * A) :=
  match l with
  | [] => [(k, v)]
  | (k', v') :: l' =>
      if bool_decide (k' = k) then (k, v) :: l' else (k', v') :: assoc_set k v l'
  end.

(** ** Exceptions, statements, trace *)

Inductive exn :=
| AttributeError (msg : string)
| ValueError (msg : string)
| InvalidRequestError
| KeyError (key : string)
| IndexError
| TypeError
| UnboundLocalError (var : string)
| RecursionError.

(** A row of a bulk insert: field name to (printed) value. *)
Definition row := list (string * string).

(** [table.__table__.insert().prefix_with(p).values(rows)] *)
Record statement := Insert {
  stmt_table : string;
  stmt_prefixes : list string;
  stmt_values : list row
}.

(** Calls that reach the external collaborators. *)
Inductive event :=
| ReflectOnly (name : string)   (* [metadata.reflect(only=[name])] *)
| ReflectAll                    (* [metadata.reflect()] *)
| Execute (s : statement).      (* [session.execute(s)] *)

(** ** The state *)

(** The MetaData object: its bind, its schema, the Table objects it holds. *)
Record metadata := MetaData {
  md_bind : engine;
  md_schema : option string;
  md_tables : list table_decl
}.

Record world := World {
  dict : gmap string value;        (* the instance [__dict__] *)
  meta : option metadata;          (* the object behind [VMetaData] *)
  heap : list class_obj;           (* mapped classes; identity = position *)
  trace : list event               (* collaborator calls, oldest first *)
}.

Definition empty_world : world :=
  {| dict := ∅; meta := None; heap := []; trace := [] |}.

(** ** A state-and-exception monad

    A raised exception keeps the state reached so far, as in Python. *)

Inductive res (A : Type) :=
| Ok (a : A)
| Raise (e : exn).
Arguments Ok {A} a.
Arguments Raise {A} e.

Definition M (A : Type) : Type := world → res A * world.

Definition ret {A} (a : A) : M A := fun w => (Ok a, w).
Definition raise {A} (e : exn) : M A := fun w => (Raise e, w).
Definition and_then {A B} (m : M A) (k : A → M B) : M B :=
  fun w => match m w with
           | (Ok a, w') => k a w'
           | (Raise e, w') => (Raise e, w')
           end.
(** [try: m except <class chosen by handles>: h] *)
Definition try_except {A} (m : M A) (handles : exn → bool) (h : M A) : M A :=
  fun w => match m w with
           | (Raise e, w') => if handles e then h w' else (Raise e, w')
           | r => r
           end.
Definition get : M world := fun w => (Ok w, w).
Definition modify (f : world → world) : M unit := fun w => (Ok tt, f w).

Declare Scope py_scope.
Delimit Scope py_scope with py.
Notation "x <- m ;; k" := (and_then m (fun x => k))
  (at level 100, m at next level, right associativity) : py_scope.
Notation "m ;;; k" := (and_then m (fun _ => k))
  (at level 100, right associativity) : py_scope.
Local Open Scope py_scope.

Fixpoint for_each {A} (l : list A) (body : A → M unit) : M unit :=
  match l with
  | [] => ret tt
  | x :: l' => body x ;;; for_each l' body
  end.

Definition is_AttributeError (e : exn) : bool :=
  match e with AttributeError _ => true | _ => false end.
Definition is_InvalidRequestError (e : exn) : bool :=
  match e with InvalidRequestError => true | _ => false end.
Definition is_KeyError (e : exn) : bool :=
  match e with KeyError _ => true | _ => false end.

Definition log (e : event) : M unit :=
  modify (fun w => {| dict := dict w; meta := meta w; heap := heap w;
                      trace := trace w ++ [e] |}).

Definition set_dict (f : gmap string value → gmap string value) : M unit :=
  modify (fun w => {| dict := f (dict w); meta := meta w; heap := heap w;
                      trace := trace w |}).
Definition set_meta (md : metadata) : M unit :=
  modify (fun w => {| dict := dict w; meta := Some md; heap := heap w;
                      trace := trace w |}).
Definition set_heap (f : list class_obj → list class_obj) : M unit :=
  modify (fun w => {| dict := dict w; meta := meta w; heap := f (heap w);
                      trace := trace w |}).

(** ** The reflection collaborator

    [MetaData.reflect] and the auto-mapper belong to the library the facade
    is built on.  They are modelled by what the source relies on:
    - [reflect(only=[name])] raises [InvalidRequestError] when the engine
      reports no table of that name (the source catches it and retries with
      another spelling); names are compared as they are written;
    - [Base.classes] has no entry for a table without a primary key (the
      source catches the [KeyError] and says a primary key is required);
    - every [automap_base(...)]/[prepare()] builds classes of its own. *)

Definition has_table (name : string) (l : list table_decl) : bool :=
  bool_decide (name ∈ map tname l).

Definition find_table (name : string) (l : list table_decl) : option table_decl :=
  find (fun t => bool_decide (tname t = name)) l.

(** The object a facade attribute must hold for a metadata call to go
    through; anything else has no [reflect] attribute. *)
Definition the_metadata (v : value) : M metadata :=
  match v with
  | VMetaData =>
      w <- get;;
      match meta w with
      | Some md => ret md
      | None => raise (AttributeError "reflect")
      end
  | _ => raise (AttributeError "reflect")
  end.

(** [md.reflect(only=[name])]: the requested name must be among the tables
    the engine reports for the schema; a table already held is not loaded
    again. *)
Definition metadata_reflect_only (v : value) (name : string) : M unit :=
  md <- the_metadata v;;
  log (ReflectOnly name);;;
  match find_table name (db_tables (md_bind md) (md_schema md)) with
  | None => raise InvalidRequestError
  | Some t =>
      if has_table name (md_tables md) then ret tt
      else set_meta {| md_bind := md_bind md; md_schema := md_schema md;
                       md_tables := md_tables md ++ [t] |}
  end.

(** [md.reflect()]: every reported table not yet held is loaded. *)
Definition metadata_reflect_all (v : value) : M unit :=
  md <- the_metadata v;;
  log ReflectAll;;;
  let fresh := filter (fun t => has_table (tname t) (md_tables md) = false)
                      (db_tables (md_bind md) (md_schema md)) in
  set_meta {| md_bind := md_bind md; md_schema := md_schema md;
              md_tables := md_tables md ++ fresh |}.

(** ** The auto-mapper *)

(** The auto-mapper maps the tables that have a primary key. *)
Definition has_primary_key (t : table_decl) : bool :=
  match primary_key t with [] => false | _ => true end.

(** The class the auto-mapper builds for table [t] at identity [a]: one
    [InstrumentedAttribute] per column, keyed by the column name. *)
Definition mapped_class (a : nat) (t : table_decl) : class_obj :=
  {| cls_table := t;
     cls_dict :=
       [("__table__", Plain); ("__module__", Plain); ("__doc__", Plain);
        ("_sa_class_manager", Plain); ("__init__", Plain); ("__mapper__", Plain)]
       ++ map (fun c => (c, InstrumentedAttribute a c)) (columns t) |}.

Fixpoint allocate (ts : list table_decl) (h : list class_obj)
  : list (string * nat) * list class_obj :=
  match ts with
  | [] => ([], h)
  | t :: ts' =>
      let a := length h in
      let '(cs, h') := allocate ts' (h ++ [mapped_class a t]) in
      ((tname t, a) :: cs, h')
  end.

(** [Base = automap_base(metadata=md); Base.prepare()], giving
    [Base.classes]: a fresh class for every mapped table held by [md]. *)
Definition automap_prepare (v : value) : M (list (string * nat)) :=
  md <- the_metadata v;;
  w <- get;;
  let '(classes, h) := allocate (filter (fun t => has_primary_key t = true)
                                        (md_tables md)) (heap w) in
  set_heap (fun _ => h);;;
  ret classes.

(** [Base.classes[name]] *)
Definition classes_getitem (classes : list (string * nat)) (name : string) : M nat :=
  match assoc_get name classes with
  | Some a => ret a
  | None => raise (KeyError name)
  end.

(** [tuple(table.__dict__.keys())] *)
Definition class_keys (a : nat) : M (list string) :=
  w <- get;;
  match heap w !! a with
  | Some c => ret (map fst (cls_dict c))
  | None => raise TypeError
  end.

(** [getattr(table, name)] *)
Definition class_getattr (a : nat) (name : string) : M cattr :=
  w <- get;;
  match heap w !! a with
  | Some c =>
      match assoc_get name (cls_dict c) with
      | Some x => ret x
      | None => raise (AttributeError name)
      end
  | None => raise TypeError
  end.

(** [setattr(table, name, x)] *)
Definition class_setattr (a : nat) (name : string) (x : cattr) : M unit :=
  set_heap (alter (fun c => {| cls_table := cls_table c;
                               cls_dict := assoc_set name x (cls_dict c) |}) a).

(** ** The facade: class [DataBase] *)

(** The read-only properties of the class and the attribute each returns. *)
Definition properties : list (string * string) :=
  [("bind", "_bind"); ("schema", "_schema")].

(** The other names found on the class rather than on the instance: the
    methods defined by [DataBase] and what every object inherits. *)
Definition class_names : list string :=
  ["__init__"; "inject"; "__getattribute__"; "__getattr__"; "__repr__";
   "_reflect_table"; "reflect"; "_get_tables"; "query"; "update"; "insert";
   "delete"; "close"; "merge"; "commit"; "flush"; "rollback"; "refresh";
   "create_all";
   "__class__"; "__dict__"; "__doc__"; "__module__"; "__weakref__";
   "__delattr__"; "__dir__"; "__eq__"; "__format__"; "__ge__"; "__gt__";
   "__hash__"; "__init_subclass__"; "__le__"; "__lt__"; "__ne__"; "__new__";
   "__reduce__"; "__reduce_ex__"; "__setattr__"; "__sizeof__"; "__str__";
   "__subclasshook__"].

Definition is_property (name : string) : bool :=
  match assoc_get name properties with Some _ => true | None => false end.

(** [setattr(self, name, v)]: a property has no setter. *)
Definition setattr (name : string) (v : value) : M unit :=
  if is_property name then raise (AttributeError "can't set attribute")
  else set_dict (insert name v).

(** The constructor's [bind] argument. *)
Inductive bind_arg :=
| BindNone
| BindUrl (url : string)
| BindEngine (e : engine).

(** An [insert_obj]: a DataFrame (column labels and rows of cells), a list
    of dicts, or anything else (by its [reprlib.repr]). *)
Inductive insert_obj :=
| DataFrame (labels : list string) (cells : list (list string))
| PyList (rows : list row)
| PyOther (repr : string).

Section Facade.

(** [sqlalchemy.create_engine] on a connection string. *)
Variable create_engine : string → engine.

(** [reprlib.repr] on the value of [self.tables]. *)
Variable reprlib_repr : value → string.

(** Every method below takes [self_], the attribute read [self.<name>]
  as the interpreter performs it (see [getattr_], which ties the knot). *)
Section Methods.

Variable self_ : string → M value.

(** [object.__getattribute__(self, name)] *)
Definition object_getattribute (name : string) : M value :=
  match assoc_get name properties with
  | Some field => self_ field
  | None =>
      w <- get;;
      match dict w !! name with
      | Some v => ret v
      | None =>
          if bool_decide (name ∈ class_names) then ret (VMethod name)
          else raise (AttributeError
                        ("'DataBase' object has no attribute '" +:+ name +:+ "'"))
      end
  end.

Definition missing_primary_key_message (table_name tables : string) : string :=
  "There must be a primary key in " +:+ table_name +:+ "! or <" +:+ table_name
  +:+ "> is not the right table name, such as " +:+ tables +:+ ".".

(** Lines 87-90: the body of the loop over [column_list]. *)
Definition alias_column (table : nat) (column : string) : M unit :=
  c <- class_getattr table column;;
  if is_instrumented c then
    class_setattr table (upper column) c;;;
    class_setattr table (lower column) c
  else ret tt.

Definition _reflect_table (table_name : string) : M value :=
  md <- self_ "_metadata";;
  metadata_reflect_only md table_name;;;
  md' <- self_ "_metadata";;
  classes <- automap_prepare md';;
  try_except
    (table <- classes_getitem classes table_name;;
     column_list <- class_keys table;;
     for_each column_list (alias_column table);;;
     ret (VClass table))
    is_KeyError
    (tables <- self_ "tables";;
     raise (ValueError
              (missing_primary_key_message table_name (reprlib_repr tables)))).

(** [self._reflect_table(name)]: read the attribute, then call it. *)
Definition call_reflect_table (name : string) : M value :=
  f <- self_ "_reflect_table";;
  match f with
  | VMethod "_reflect_table" => _reflect_table name
  | _ => raise TypeError
  end.

Definition __getattribute__ (table_name : string) : M value :=
  v <- object_getattribute table_name;;
  (if is_placeholder v then
     try_except
       (t <- call_reflect_table table_name;; setattr table_name t)
       is_InvalidRequestError
       (try_except
          (t <- call_reflect_table (lower table_name);; setattr table_name t)
          is_InvalidRequestError
          (t <- call_reflect_table (upper table_name);; setattr table_name t))
   else ret tt);;;
  object_getattribute table_name.

Definition unknown_table_message (name tables : string) : string :=
  "<" +:+ name +:+ "> is not the right table name, such as " +:+ tables +:+ ".".

Definition __getattr__ (name : string) : M value :=
  tables <- self_ "tables";;
  raise (AttributeError (unknown_table_message name (reprlib_repr tables))).


(** [bind.dialect.name] / [insp.get_table_names(schema)] need an engine. *)
Definition the_engine (v : value) : M engine :=
  match v with
  | VEngine e => ret e
  | _ => raise (AttributeError "dialect")
  end.

(** [_get_tables(bind, schema)] *)
Definition _get_tables (bind : value) (schema : option string) : M (list string) :=
  e <- the_engine bind;;
  ret (map tname (db_tables e schema)).

Definition call_get_tables (f bind : value) (schema : option string)
  : M (list string) :=
  match f with
  | VMethod "_get_tables" => _get_tables bind schema
  | _ => raise TypeError
  end.

(** [MetaData(bind=bind, schema=schema)]: a new, empty MetaData object. *)
Definition new_metadata (bind : value) (schema : option string) : M value :=
  e <- the_engine bind;;
  set_meta {| md_bind := e; md_schema := schema; md_tables := [] |};;;
  ret VMetaData.

(** Lines 38-41: the body of the loop over [self.tables]. *)
Definition register_slot (table : string) : M unit :=
  setattr table (VStr "None");;;
  setattr (lower table) (VStr "None");;;
  setattr (upper table) (VStr "None").

(** [for table in tables: ...] of [__init__]. *)
Definition register_slots (tables : value) : M unit :=
  match tables with
  | VNames l => for_each l register_slot
  | _ => raise TypeError
  end.

Definition __init__ (bind : bind_arg) (schema : option string) : M unit :=
  match bind with
  | BindNone => ret tt
  | _ =>
      let schema := if bool_decide (schema = Some "None") then None else schema in
      let bind := match bind with
                  | BindUrl url => VEngine (create_engine url)
                  | BindEngine e => VEngine e
                  | BindNone => VNone
                  end in
      setattr "_bind" bind;;;
      setattr "_schema" (match schema with Some s => VStr s | None => VNone end);;;
      b <- self_ "_bind";;
      md <- new_metadata b schema;;
      setattr "_metadata" md;;;
      _ <- self_ "_metadata";;
      setattr "Base" VBase;;;
      _ <- self_ "_bind";;
      setattr "_session" VSession;;;
      f <- self_ "_get_tables";;
      b' <- self_ "_bind";;
      tables <- call_get_tables f b' schema;;
      setattr "tables" (VNames tables);;;
      ts <- self_ "tables";;
      register_slots ts
  end.

Definition inject (bind : bind_arg) (schema : option string) : M unit :=
  f <- self_ "__init__";;
  match f with
  | VMethod "__init__" => __init__ bind schema
  | _ => raise TypeError
  end.

(** Lines 102-104: the body of the loop over [Base.classes.items()]. *)
Definition materialize (item : string * nat) : M unit :=
  let '(k, v) := item in
  setattr k (VClass v);;;
  setattr (lower k) (VClass v);;;
  setattr (upper k) (VClass v).

Definition reflect : M unit :=
  md <- self_ "_metadata";;
  metadata_reflect_all md;;;
  md' <- self_ "_metadata";;
  classes <- automap_prepare md';;
  for_each classes materialize.

(** [insert_obj.empty]: some axis has length zero. *)
Definition empty (labels : list string) (cells : list (list string)) : bool :=
  match labels, cells with
  | [], _ | _, [] => true
  | _, _ => false
  end.

(** [insert_obj.to_dict('records')] *)
Definition to_dict_records (labels : list string) (cells : list (list string))
  : list row :=
  map (fun r => zip labels r) cells.

(** [self._bind.dialect.name] *)
Definition dialect : M string :=
  b <- self_ "_bind";;
  e <- the_engine b;;
  ret (dialect_name e).

(** [table.__table__] *)
Definition __table__ (table : value) : M table_decl :=
  match table with
  | VClass a =>
      w <- get;;
      match heap w !! a with
      | Some c => ret (cls_table c)
      | None => raise (AttributeError "__table__")
      end
  | _ => raise (AttributeError "__table__")
  end.

(** [for i in indexes: if i.unique: index = i.name; break] *)
Definition first_unique (l : list index) : option string :=
  iname <$> find unique l.

(** How an f-string prints [index]. *)
Definition format_index (index : option string) : string :=
  match index with Some s => s | None => "None" end.

Definition oracle_hint (table_name : string) (index : option string) : string :=
  "/*+ IGNORE_ROW_ON_DUPKEY_INDEX (" +:+ table_name +:+ ", "
  +:+ format_index index +:+ ") */".

Definition unsupported_ignore_message : string :=
  "You can set 'IGNORE_DUP_KEY = ON' while create the table and set the paramenter 'ignore=False'.".

Definition empty_dataframe_message : string :=
  "The input DataFrame is empty, please check!".

Definition not_a_list_message (repr : string) : string :=
  "The " +:+ repr +:+ " must be list of dicts type!".

(** Lines 152-158: the accepted shapes of [insert_obj]. *)
Definition validate (obj : insert_obj) : M (list row) :=
  match obj with
  | DataFrame labels cells =>
      if empty labels cells then raise (ValueError empty_dataframe_message)
      else ret (to_dict_records labels cells)
  | PyList rows => ret rows
  | PyOther repr => raise (ValueError (not_a_list_message repr))
  end.

(** Lines 164-171: the oracle branch. *)
Definition oracle_ignore_str (table : value) (ignore : bool) (index : option string)
  : M string :=
  index <- (if ignore && bool_decide (index = None) then
              t <- __table__ table;;
              match first_unique (indexes t) with
              | Some i => ret (Some i)
              | None =>
                  t' <- __table__ table;;
                  match constraints t' with
                  | c :: _ => ret (cname c)
                  | [] => raise IndexError
                  end
              end
            else ret index);;
  if ignore then
    t <- __table__ table;;
    ret (oracle_hint (tname t) index)
  else ret "".

(** Lines 159-176: the local [ignore_str]; [None] when no branch binds it. *)
Definition ignore_str_of (table : value) (ignore : bool) (index : option string)
  : M (option string) :=
  d <- dialect;;
  if bool_decide (d = "mysql") then ret (Some (if ignore then "IGNORE" else ""))
  else
    d <- dialect;;
    if bool_decide (d = "sqlite") then
      ret (Some (if ignore then "OR REPLACE" else ""))
    else
      d <- dialect;;
      if bool_decide (d = "oracle") then
        s <- oracle_ignore_str table ignore index;;
        ret (Some s)
      else
        d <- dialect;;
        if bool_decide (d = "mssql") then
          if ignore then raise (ValueError unsupported_ignore_message)
          else ret (Some "")
        else ret None.

(** The session collaborator: [session.execute] needs the session, and
    [execute(statement)] hands the statement over. *)
Definition the_session (v : value) : M unit :=
  match v with
  | VSession => ret tt
  | _ => raise (AttributeError "execute")
  end.

Definition session_execute (s : statement) : M unit := log (Execute s).

Definition insert (table : value) (obj : insert_obj) (ignore : bool)
  (index : option string) : M unit :=
  rows <- validate obj;;
  ignore_str <- ignore_str_of table ignore index;;
  session <- self_ "_session";;
  the_session session;;;
  t <- __table__ table;;
  prefix <- match ignore_str with
            | Some p => ret p
            | None => raise (UnboundLocalError "ignore_str")
            end;;
  session_execute
    {| stmt_table := tname t; stmt_prefixes := [prefix]; stmt_values := rows |}.

End Methods.

(** [self.<name>]: [__getattribute__] first, [__getattr__] when that raises
    [AttributeError].  [fuel] is the interpreter's recursion limit. *)
Fixpoint getattr_ (fuel : nat) (name : string) : M value :=
  match fuel with
  | 0 => raise RecursionError
  | S fuel' =>
      try_except (__getattribute__ (getattr_ fuel') name)
                 is_AttributeError
                 (__getattr__ (getattr_ fuel') name)
  end.

End Facade.

(** ** Well-formed facade states *)

(** The three spellings under which a table name is registered. *)
Definition aliases (name : string) : list string :=
  [name; lower name; upper name].

(** No spelling of a table name is a read-only property of the facade. *)
Definition well_named (db : list table_decl) : bool :=
  forallb (fun t => forallb (fun n => negb (is_property n)) (aliases (tname t))) db.

(** The names the facade uses for itself: what the constructor stores on
    the instance, the properties, and the names found on the class. *)
Definition own_names : list string :=
  ["_bind"; "_schema"; "_metadata"; "Base"; "_session"; "tables"]
  ++ map fst properties ++ class_names.

(** No spelling of a table name is one of the facade's own names. *)
Definition catalog_ok (db : list table_decl) : bool :=
  forallb (fun t => forallb (fun n => negb (bool_decide (n ∈ own_names)))
                            (aliases (tname t))) db.

(** The schema the constructor keeps. *)
Definition kept_schema (schema : option string) : option string :=
  if bool_decide (schema = Some "None") then None else schema.

(** The instance [__dict__] the constructor has built when it reaches its
    loop over the tables. *)
Definition bound_dict (e : engine) (s : option string) : gmap string value :=
  <["tables" := VNames (map tname (db_tables e s))]>
    (<["_session" := VSession]> (<["Base" := VBase]>
      (<["_metadata" := VMetaData]>
        (<["_schema" := match s with Some x => VStr x | None => VNone end]>
          (<["_bind" := VEngine e]> ∅))))).

(** The tables held by the MetaData object are tables of the database. *)
Definition held_ok (db held : list table_decl) : Prop :=
  Forall (fun t => find_table (tname t) db = Some t) held.

(** The tables held after [reflect(only=[name])] found [t]. *)
Definition held_after (name : string) (t : table_decl) (held : list table_decl)
  : list table_decl :=
  if has_table name held then held else held ++ [t].

(** A facade bound to engine [e] and [schema]: the attributes the methods
    read hold what the constructor stored there. *)
Record facade_ok (e : engine) (schema : option string) (w : world) : Prop := {
  ok_metadata : dict w !! "_metadata" = Some VMetaData;
  ok_tables : dict w !! "tables" = Some (VNames (map tname (db_tables e schema)));
  ok_method : dict w !! "_reflect_table" = None;
  ok_meta : ∃ held, meta w = Some (MetaData e schema held)
                    ∧ held_ok (db_tables e schema) held
}.

(** The state after [session.execute(s)]. *)
Definition executed (w : world) (s : statement) : world :=
  {| dict := dict w; meta := meta w; heap := heap w;
     trace := trace w ++ [Execute s] |}.

(** A facade on which [insert] finds its engine and its session, and a
    mapped class [c] at identity [a] to insert into. *)
Record insert_ready (e : engine) (a : nat) (c : class_obj) (w : world) : Prop := {
  ready_bind : dict w !! "_bind" = Some (VEngine e);
  ready_session : dict w !! "_session" = Some VSession;
  ready_table : heap w !! a = Some c
}.

(** ** Re-binding *)

(** The Python value of [self._bind] and [self._schema] as the constructor's
    arguments.  The constructor stores an engine, and [None] or a str as the
    schema; any other value is not a binding. *)
Definition as_bind (v : value) : M bind_arg :=
  match v with
  | VNone => ret BindNone
  | VStr url => ret (BindUrl url)
  | VEngine e => ret (BindEngine e)
  | _ => raise (AttributeError "dialect")
  end.

Definition as_schema (v : value) : M (option string) :=
  match v with
  | VNone => ret None
  | VStr s => ret (Some s)
  | _ => raise TypeError
  end.

(** [refresh]: [return self.__init__(self._bind, self._schema)] *)
Definition refresh (create_engine : string → engine) (self_ : string → M value)
  : M unit :=
  f <- self_ "__init__";;
  b <- self_ "_bind";;
  s <- self_ "_schema";;
  match f with
  | VMethod "__init__" =>
      bind <- as_bind b;;
      schema <- as_schema s;;
      __init__ create_engine self_ bind schema
  | _ => raise TypeError
  end.

(** ** Names that do not meet *)

(** No spelling of one name is a spelling of another name of the list. *)
Definition spellings_apart (names : list string) : bool :=
  forallb (fun k =>
    forallb (fun k' =>
      bool_decide (k = k')
      || forallb (fun n => negb (bool_decide (n ∈ aliases k'))) (aliases k))
      names) names.

(** What a mapped class holds besides its columns. *)
Definition plain_names : list string :=
  ["__table__"; "__module__"; "__doc__"; "_sa_class_manager"; "__init__";
   "__mapper__"].

(** The columns of a table do not meet each other under any spelling, nor
    the other entries of the class. *)
Definition columns_apart (cols : list string) : bool :=
  spellings_apart cols
  && forallb (fun k => forallb (fun n => negb (bool_decide (n ∈ plain_names)))
                               (aliases k)) cols.

(** In the [__dict__] [D] of the class at identity [a], every column holds
    its own attribute and every other entry is as the auto-mapper left it. *)
Definition columns_kept (a : nat) (cols : list string)
  (D : list (string * cattr)) : Prop :=
  (∀ k, k ∈ cols → assoc_get k D = Some (InstrumentedAttribute a k))
  ∧ (∀ p, p ∈ plain_names → assoc_get p D = Some Plain).

(** The three spellings of column [k] hold the attribute of [k]. *)
Definition column_aliased (a : nat) (k : string)
  (D : list (string * cattr)) : Prop :=
  ∀ n, n ∈ aliases k → assoc_get n D = Some (InstrumentedAttribute a k).

(** The instance [__dict__] when the constructor, run again on an object
    whose [__dict__] was [d], reaches its loop over the tables. *)
Definition rebound_dict (e : engine) (s : option string)
  (d : gmap string value) : gmap string value :=
  <["tables" := VNames (map tname (db_tables e s))]>
    (<["_session" := VSession]> (<["Base" := VBase]>
      (<["_metadata" := VMetaData]>
        (<["_schema" := match s with Some x => VStr x | None => VNone end]>
          (<["_bind" := VEngine e]> d))))).

(** No slot of the instance hides a name found on the class. *)
Definition methods_visible (w : world) : bool :=
  forallb (fun n => match dict w !! n with None => true | Some _ => false end)
          class_names.

(** ** Sample data for the closed examples *)

(** [reprlib.repr] of a short list of short names prints it in full. *)
Definition short_repr (v : value) : string :=
  match v with
  | VNames l => "[" +:+ String.concat ", " (map (fun s => "'" +:+ s +:+ "'") l) +:+ "]"
  | _ => "..."
  end.

Definition users : table_decl :=
  {| tname := "users"; columns := ["id"; "name"]; primary_key := ["id"];
     indexes := [{| iname := "ix_users_name"; unique := true |}];
     constraints := [{| cname := Some "pk_users" |}] |}.

(** A table without a primary key. *)
Definition events : table_decl :=
  {| tname := "events"; columns := ["at"; "what"]; primary_key := [];
     indexes := []; constraints := [] |}.

(** The default schema holds [users] and [events]; a named schema is empty. *)
Definition sample_engine (dialect : string) : engine :=
  {| dialect_name := dialect;
     db_tables := fun schema => match schema with
                                | None => [users; events]
                                | Some _ => []
                                end |}.

Definition sample_create_engine (url : string) : engine := sample_engine url.

(** [db = DataBase(engine, schema)] on a fresh object. *)
Definition sample_bound (dialect : string) (schema : option string) : world :=
  snd (__init__ sample_create_engine (getattr_ short_repr 8)
         (BindEngine (sample_engine dialect)) schema empty_world).

Definition sample_world (dialect : string) : world := sample_bound dialect None.

(** [db.users] read once on the sample facade. *)
Definition resolved_world (dialect : string) : world :=
  snd (getattr_ short_repr 8 "users" (sample_world dialect)).

(** The class that read produced, at identity 0. *)
Definition users_class : class_obj :=
  {| cls_table := users;
     cls_dict :=
       [("__table__", Plain); ("__module__", Plain); ("__doc__", Plain);
        ("_sa_class_manager", Plain); ("__init__", Plain); ("__mapper__", Plain);
        ("id", InstrumentedAttribute 0 "id");
        ("name", InstrumentedAttribute 0 "name");
        ("ID", InstrumentedAttribute 0 "id");
        ("NAME", InstrumentedAttribute 0 "name")] |}.

(** A catalog with a mixed-case and an upper-case name, and a facade bound
    to it. *)
Definition orders : table_decl :=
  {| tname := "Orders"; columns := ["Id"; "total"]; primary_key := ["Id"];
     indexes := []; constraints := [] |}.

Definition audit : table_decl :=
  {| tname := "AUDIT"; columns := ["id"]; primary_key := ["id"];
     indexes := []; constraints := [{| cname := None |}] |}.

Definition mixed_engine (dialect : string) : engine :=
  {| dialect_name := dialect; db_tables := fun _ => [orders; audit] |}.

Definition mixed_world (dialect : string) : world :=
  snd (__init__ sample_create_engine (getattr_ short_repr 8)
         (BindEngine (mixed_engine dialect)) None empty_world).

(** A catalog the facade cannot hold: [SCHEMA] in lower case is the name of
    a property. *)
Definition clashing_engine : engine :=
  {| dialect_name := "sqlite";
     db_tables := fun _ =>
       [users; {| tname := "SCHEMA"; columns := ["id"]; primary_key := ["id"];
                  indexes := []; constraints := [] |}] |}.

(** ** Proofs *)

Section Proofs.

Variable reprlib_repr : value → string.

Local Abbreviation attr := (getattr_ reprlib_repr).

(** *** Tactics *)

Ltac listed :=
  refine (bool_decide_eq_true_1 _ _); vm_compute; reflexivity.

Ltac not_a_class_name :=
  refine (bool_decide_eq_false_1 _ _); vm_compute; reflexivity.

Ltac dialect_case :=
  first [rewrite bool_decide_eq_true_2 by done
        |rewrite bool_decide_eq_false_2 by done].

(** *** Sequencing *)

Lemma and_then_ok {A B} (m : M A) (k : A → M B) w a w' :
  m w = (Ok a, w') → and_then m k w = k a w'.
Proof. unfold and_then. by intros ->. Qed.

Lemma and_then_raise {A B} (m : M A) (k : A → M B) w e w' :
  m w = (Raise e, w') → and_then m k w = (Raise e, w').
Proof. unfold and_then. by intros ->. Qed.

Lemma and_then_inv {A B} (m : M A) (k : A → M B) w b w' :
  and_then m k w = (Ok b, w') → ∃ a w0, m w = (Ok a, w0) ∧ k a w0 = (Ok b, w').
Proof.
  unfold and_then. destruct (m w) as [[a|x] w0]; [|done]. eauto.
Qed.

Lemma try_except_inv {A} (m h : M A) handles w a w' :
  try_except m handles h w = (Ok a, w') →
  m w = (Ok a, w') ∨ ∃ x w0, m w = (Raise x, w0) ∧ h w0 = (Ok a, w').
Proof.
  unfold try_except. destruct (m w) as [[a0|x] w0]; [by left|].
  destruct (handles x); [|done]. right. eauto.
Qed.

Lemma try_except_ok {A} (m h : M A) handles w a w' :
  m w = (Ok a, w') → try_except m handles h w = (Ok a, w').
Proof. unfold try_except. by intros ->. Qed.

Lemma try_except_caught {A} (m h : M A) handles w e w' :
  m w = (Raise e, w') → handles e = true → try_except m handles h w = h w'.
Proof. unfold try_except. by intros -> ->. Qed.

Lemma try_except_passed {A} (m h : M A) handles w e w' :
  m w = (Raise e, w') → handles e = false →
  try_except m handles h w = (Raise e, w').
Proof. unfold try_except. by intros -> ->. Qed.

(** *** Reading attributes *)

Lemma getattr_S fuel name :
  attr (S fuel) name =
  try_except (__getattribute__ reprlib_repr (attr fuel) name) is_AttributeError
             (__getattr__ reprlib_repr (attr fuel) name).
Proof. reflexivity. Qed.

(** A slot that holds anything but the placeholder is returned as it is:
    no resolution, no change of state. *)
Lemma getattr_hit fuel name v w :
  is_property name = false →
  dict w !! name = Some v →
  is_placeholder v = false →
  attr (S fuel) name w = (Ok v, w).
Proof.
  intros Hp Hd Hv. rewrite getattr_S.
  unfold try_except, __getattribute__, and_then, object_getattribute.
  unfold is_property in Hp. destruct (assoc_get name properties); [done|].
  unfold and_then, get, ret. rewrite Hd. simpl. rewrite Hv. simpl.
  by rewrite Hd.
Qed.

(** A name found on the class only is a bound method. *)
Lemma getattr_method fuel name w :
  is_property name = false →
  dict w !! name = None →
  name ∈ class_names →
  attr (S fuel) name w = (Ok (VMethod name), w).
Proof.
  intros Hp Hd Hc. rewrite getattr_S.
  unfold try_except, __getattribute__, and_then, object_getattribute.
  unfold is_property in Hp. destruct (assoc_get name properties); [done|].
  unfold and_then, get, ret. rewrite Hd.
  rewrite !(bool_decide_eq_true_2 _ Hc). cbn [is_placeholder]. by rewrite Hd.
Qed.

Lemma read_metadata e schema fuel w :
  facade_ok e schema w → attr (S fuel) "_metadata" w = (Ok VMetaData, w).
Proof. intros [H _ _ _]. by apply getattr_hit. Qed.

Lemma read_tables e schema fuel w :
  facade_ok e schema w →
  attr (S fuel) "tables" w = (Ok (VNames (map tname (db_tables e schema))), w).
Proof. intros [_ H _ _]. by apply getattr_hit. Qed.

Lemma read_reflect_table e schema fuel w :
  facade_ok e schema w →
  attr (S fuel) "_reflect_table" w = (Ok (VMethod "_reflect_table"), w).
Proof.
  intros [_ _ H _]. apply getattr_method; [done|done|].
  unfold class_names. set_solver.
Qed.

(** *** Association lists *)

Lemma assoc_get_set_is_Some {A} k k' (x : A) l :
  is_Some (assoc_get k l) → is_Some (assoc_get k (assoc_set k' x l)).
Proof.
  induction l as [|[k0 v0] l IH]; simpl; [by intros [? ?]|].
  repeat case_bool_decide; simpl; repeat case_bool_decide; subst; eauto; done.
Qed.

Lemma assoc_get_keys {A} k (l : list (string * A)) :
  k ∈ map fst l → is_Some (assoc_get k l).
Proof.
  induction l as [|[k0 v0] l IH]; simpl; [by intros ?%elem_of_nil|].
  intros [->|?]%elem_of_cons; case_bool_decide; eauto; done.
Qed.

(** *** The tables of the database *)

Lemma find_table_Some name db t :
  find_table name db = Some t → t ∈ db ∧ tname t = name.
Proof.
  unfold find_table. induction db as [|t0 db IH]; simpl; [done|].
  case_bool_decide.
  - intros [= ->]. split; [left|done].
  - intros [? ?]%IH. split; [by right|done].
Qed.

Lemma find_table_None name db :
  find_table name db = None → has_table name db = false.
Proof.
  unfold find_table, has_table. intros H. apply bool_decide_eq_false_2.
  induction db as [|t0 db IH]; simpl in *; [by intros ?%elem_of_nil|].
  case_bool_decide; [done|]. intros [?|?]%elem_of_cons; [done|by apply IH].
Qed.

Lemma has_table_true name l :
  has_table name l = true → ∃ t, t ∈ l ∧ tname t = name.
Proof.
  unfold has_table. intros H%bool_decide_eq_true_1.
  apply list_elem_of_fmap in H as (t & -> & ?). eauto.
Qed.

(** *** The auto-mapper's allocation *)

Lemma allocate_length ts h : (length h ≤ length (snd (allocate ts h)))%nat.
Proof.
  revert h. induction ts as [|t ts IH]; intros h; simpl; [done|].
  specialize (IH (h ++ [mapped_class (length h) t])).
  destruct (allocate ts _) as [cs h']. simpl in *.
  rewrite length_app in IH. simpl in IH. lia.
Qed.

Lemma allocate_prefix ts h a c :
  h !! a = Some c → snd (allocate ts h) !! a = Some c.
Proof.
  revert h. induction ts as [|t ts IH]; intros h Ha; simpl; [done|].
  specialize (IH (h ++ [mapped_class (length h) t])).
  destruct (allocate ts _) as [cs h']. simpl in *.
  apply IH. by apply lookup_app_l_Some.
Qed.

Lemma allocate_lookup ts h name a :
  assoc_get name (fst (allocate ts h)) = Some a →
  (length h ≤ a)%nat ∧ ∃ t, t ∈ ts ∧ tname t = name
                    ∧ snd (allocate ts h) !! a = Some (mapped_class a t).
Proof.
  revert h. induction ts as [|t ts IH]; intros h; simpl; [done|].
  pose proof (allocate_prefix ts (h ++ [mapped_class (length h) t]) (length h)
                (mapped_class (length h) t)) as Hpre.
  specialize (IH (h ++ [mapped_class (length h) t])).
  destruct (allocate ts _) as [cs h']. simpl in *.
  case_bool_decide as Hn.
  - intros [= <-]. split; [done|]. exists t. split; [left|]. split; [done|].
    apply Hpre. by rewrite lookup_app_r, Nat.sub_diag.
  - intros (Hle & t' & ? & ? & ?)%IH. rewrite length_app in Hle. simpl in Hle.
    split; [lia|]. exists t'. split; [by right|done].
Qed.

Lemma allocate_member ts h t :
  t ∈ ts → is_Some (assoc_get (tname t) (fst (allocate ts h))).
Proof.
  revert h. induction ts as [|t0 ts IH]; intros h; [by intros ?%elem_of_nil|].
  simpl. specialize (IH (h ++ [mapped_class (length h) t0])).
  destruct (allocate ts _) as [cs h']. simpl in *.
  intros [->|?]%elem_of_cons; case_bool_decide; eauto; done.
Qed.

Lemma allocate_absent ts h name :
  (∀ t, t ∈ ts → tname t ≠ name) → assoc_get name (fst (allocate ts h)) = None.
Proof.
  revert h. induction ts as [|t0 ts IH]; intros h Hall; simpl; [done|].
  specialize (IH (h ++ [mapped_class (length h) t0])).
  destruct (allocate ts _) as [cs h']. simpl in *.
  case_bool_decide as Hn.
  - exfalso. eapply Hall; [left|done].
  - apply IH. intros t Ht. apply Hall. by right.
Qed.

(** *** The loop that aliases the columns *)

Lemma alias_loop a cols : ∀ d m h tr c,
  h !! a = Some c →
  (∀ k, k ∈ cols → is_Some (assoc_get k (cls_dict c))) →
  ∃ h' c', for_each cols (alias_column a) (World d m h tr) = (Ok tt, World d m h' tr)
           ∧ length h' = length h
           ∧ h' !! a = Some c' ∧ cls_table c' = cls_table c.
Proof.
  induction cols as [|k cols IH]; intros d m h tr c Ha Hkeys.
  - exists h, c. by simpl.
  - destruct (Hkeys k) as [x Hx]; [left|].
    cbn [for_each]. unfold and_then at 1. unfold alias_column at 1.
    unfold and_then at 1. unfold class_getattr, and_then, get. cbn [heap].
    rewrite Ha, Hx. unfold ret at 1.
    destruct (is_instrumented x).
    + unfold class_setattr, set_heap, modify. cbn [dict meta heap trace].
      set (f1 := λ c0, {| cls_table := cls_table c0;
                          cls_dict := assoc_set (upper k) x (cls_dict c0) |}).
      set (f2 := λ c0, {| cls_table := cls_table c0;
                          cls_dict := assoc_set (lower k) x (cls_dict c0) |}).
      destruct (IH d m (alter f2 a (alter f1 a h)) tr (f2 (f1 c))) as (h' & c' & -> & Hl & Hc & Ht).
      * rewrite list_lookup_alter_eq, list_lookup_alter_eq, Ha. done.
      * intros k' Hk'. simpl. do 2 apply assoc_get_set_is_Some.
        apply Hkeys. by right.
      * exists h', c'. split; [done|]. rewrite Hl, !length_alter.
        split; [done|]. split; [done|]. by rewrite Ht.
    + unfold ret.
      destruct (IH d m h tr c) as (h' & c' & -> & Hl & Hc & Ht); [done| |].
      * intros k' Hk'. apply Hkeys. by right.
      * by exists h', c'.
Qed.

(** *** The collaborators on a bound facade *)

Lemma reflect_only_found e s held d h tr name t :
  find_table name (db_tables e s) = Some t →
  metadata_reflect_only VMetaData name (World d (Some (MetaData e s held)) h tr)
  = (Ok tt, World d (Some (MetaData e s (held_after name t held))) h
                  (tr ++ [ReflectOnly name])).
Proof.
  intros Hf. unfold metadata_reflect_only, the_metadata, and_then, get, log, modify,
    held_after. cbn. rewrite Hf. by destruct (has_table name held).
Qed.

Lemma reflect_only_missing e s held d h tr name :
  find_table name (db_tables e s) = None →
  metadata_reflect_only VMetaData name (World d (Some (MetaData e s held)) h tr)
  = (Raise InvalidRequestError,
     World d (Some (MetaData e s held)) h (tr ++ [ReflectOnly name])).
Proof.
  intros Hf. unfold metadata_reflect_only, the_metadata, and_then, get, log, modify.
  cbn. by rewrite Hf.
Qed.

Lemma automap_prepare_spec d md h tr :
  let ts := filter (λ t, has_primary_key t = true) (md_tables md) in
  automap_prepare VMetaData (World d (Some md) h tr)
  = (Ok (fst (allocate ts h)), World d (Some md) (snd (allocate ts h)) tr).
Proof.
  unfold automap_prepare, the_metadata, and_then, get. cbn.
  by destruct (allocate _ h).
Qed.

Lemma held_after_ok db name t held :
  find_table name db = Some t → held_ok db held → held_ok db (held_after name t held).
Proof.
  intros Hf Hh. unfold held_after. destruct (has_table name held); [done|].
  apply Forall_app. split; [done|]. apply Forall_singleton.
  by destruct (find_table_Some _ _ _ Hf) as [_ ->].
Qed.

Lemma held_after_has db name t held :
  find_table name db = Some t → held_ok db held → t ∈ held_after name t held.
Proof.
  intros Hf Hh. unfold held_after. destruct (has_table name held) eqn:E.
  - apply has_table_true in E as (t' & Ht' & Hn).
    pose proof (proj1 (Forall_forall _ _) Hh t' Ht') as Hf'. simpl in Hf'.
    rewrite Hn, Hf in Hf'. by injection Hf' as ->.
  - apply elem_of_app. right. by left.
Qed.

Lemma facade_ok_frame e s d held h tr held' h' tr' :
  facade_ok e s (World d (Some (MetaData e s held)) h tr) →
  held_ok (db_tables e s) held' →
  facade_ok e s (World d (Some (MetaData e s held')) h' tr').
Proof. intros [H1 H2 H3 _] Hh. split; eauto. Qed.

(** *** The resolver *)

(** A table of the database with a primary key resolves to a class that did
    not exist before, after exactly one single-table reflection. *)
Lemma reflect_table_found e s d held h tr fuel name t :
  facade_ok e s (World d (Some (MetaData e s held)) h tr) →
  held_ok (db_tables e s) held →
  find_table name (db_tables e s) = Some t →
  has_primary_key t = true →
  ∃ a h', _reflect_table reprlib_repr (attr (S fuel)) name
            (World d (Some (MetaData e s held)) h tr)
          = (Ok (VClass a),
             World d (Some (MetaData e s (held_after name t held))) h'
                   (tr ++ [ReflectOnly name]))
          ∧ (length h ≤ a < length h')%nat.
Proof.
  intros Hok Hheld Hf Hpk. unfold _reflect_table.
  erewrite and_then_ok; [|by eapply read_metadata].
  erewrite and_then_ok; [|by apply reflect_only_found].
  assert (held_ok (db_tables e s) (held_after name t held)) as Hheld'
    by by apply held_after_ok.
  erewrite and_then_ok; [|eapply read_metadata, facade_ok_frame; eauto].
  erewrite and_then_ok; [|apply automap_prepare_spec]. cbn [md_tables].
  set (ts := filter (λ t0, has_primary_key t0 = true) (held_after name t held)).
  assert (t ∈ ts) as Hin.
  { apply list_elem_of_filter. split; [done|]. by eapply held_after_has. }
  destruct (allocate_member ts h t Hin) as [a Ha].
  destruct (find_table_Some _ _ _ Hf) as [_ Hname]. rewrite Hname in Ha.
  destruct (allocate_lookup _ _ _ _ Ha) as (Hle & t' & Ht' & Hn' & Hheap).
  destruct (alias_loop a (map fst (cls_dict (mapped_class a t'))) d
              (Some (MetaData e s (held_after name t held)))
              (snd (allocate ts h)) (tr ++ [ReflectOnly name])
              (mapped_class a t') Hheap) as (h' & c' & Hloop & Hlen & Hc' & _).
  { intros k Hk. by apply assoc_get_keys. }
  exists a, h'. split.
  - erewrite try_except_ok; [done|].
    unfold classes_getitem. rewrite Ha.
    erewrite and_then_ok; [|done].
    erewrite and_then_ok; [|unfold class_keys, and_then, get; cbn [heap];
                            by rewrite Hheap].
    by erewrite and_then_ok.
  - split; [done|]. rewrite Hlen. by eapply lookup_lt_Some.
Qed.

(** A table of the database without a primary key is not mapped: the
    resolver raises [ValueError] with its primary-key message. *)
Lemma reflect_table_unmapped e s d held h tr fuel name t :
  facade_ok e s (World d (Some (MetaData e s held)) h tr) →
  held_ok (db_tables e s) held →
  find_table name (db_tables e s) = Some t →
  has_primary_key t = false →
  ∃ h', _reflect_table reprlib_repr (attr (S fuel)) name
          (World d (Some (MetaData e s held)) h tr)
        = (Raise (ValueError (missing_primary_key_message name
                    (reprlib_repr (VNames (map tname (db_tables e s)))))),
           World d (Some (MetaData e s (held_after name t held))) h'
                 (tr ++ [ReflectOnly name])).
Proof.
  intros Hok Hheld Hf Hpk. unfold _reflect_table.
  erewrite and_then_ok; [|by eapply read_metadata].
  erewrite and_then_ok; [|by apply reflect_only_found].
  assert (held_ok (db_tables e s) (held_after name t held)) as Hheld'
    by by apply held_after_ok.
  assert (facade_ok e s (World d (Some (MetaData e s (held_after name t held))) h
                           (tr ++ [ReflectOnly name]))) as Hok1
    by (eapply facade_ok_frame; eauto).
  erewrite and_then_ok; [|by eapply read_metadata].
  erewrite and_then_ok; [|apply automap_prepare_spec]. cbn [md_tables].
  set (ts := filter (λ t0, has_primary_key t0 = true) (held_after name t held)).
  exists (snd (allocate ts h)).
  erewrite try_except_caught; cycle 1.
  { erewrite and_then_raise; [done|]. unfold classes_getitem.
      rewrite allocate_absent; [done|].
      intros t' [Hpk' Ht']%list_elem_of_filter Hn.
      pose proof (proj1 (Forall_forall _ _) Hheld' t' Ht') as Hf'. simpl in Hf'.
      rewrite Hn, Hf in Hf'. injection Hf' as ->. congruence. }
  { reflexivity. }
  erewrite and_then_ok; [done|].
  eapply read_tables, facade_ok_frame; eauto.
Qed.

(** A name that is not a table of the database does not reflect: the
    resolver raises [InvalidRequestError]. *)
Lemma reflect_table_missing e s d held h tr fuel name :
  facade_ok e s (World d (Some (MetaData e s held)) h tr) →
  find_table name (db_tables e s) = None →
  _reflect_table reprlib_repr (attr (S fuel)) name
    (World d (Some (MetaData e s held)) h tr)
  = (Raise InvalidRequestError,
     World d (Some (MetaData e s held)) h (tr ++ [ReflectOnly name])).
Proof.
  intros Hok Hf. unfold _reflect_table.
  erewrite and_then_ok; [|by eapply read_metadata].
  by erewrite and_then_raise; [|by apply reflect_only_missing].
Qed.

(** *** Reading an unresolved slot *)

Lemma object_getattribute_dict self_ name v w :
  is_property name = false →
  dict w !! name = Some v →
  object_getattribute self_ name w = (Ok v, w).
Proof.
  intros Hp Hd. unfold object_getattribute, is_property in *.
  destruct (assoc_get name properties); [done|].
  unfold and_then, get, ret. by rewrite Hd.
Qed.

Lemma call_reflect_table_eq e s fuel name w :
  facade_ok e s w →
  call_reflect_table reprlib_repr (attr (S fuel)) name w
  = _reflect_table reprlib_repr (attr (S fuel)) name w.
Proof.
  intros Hok. unfold call_reflect_table.
  by erewrite and_then_ok; [|by eapply read_reflect_table].
Qed.

Lemma facade_ok_insert e s w w' name v :
  facade_ok e s w →
  dict w !! name = Some (VStr "None") →
  dict w' = <[name := v]> (dict w) →
  (∃ held, meta w' = Some (MetaData e s held) ∧ held_ok (db_tables e s) held) →
  facade_ok e s w'.
Proof.
  intros [H1 H2 H3 _] Hd Hd' Hm.
  split; [| | |done]; rewrite Hd', lookup_insert_ne; congruence.
Qed.

(** The first read of an unresolved slot whose name is a table with a
    primary key: one single-table reflection, a class that did not exist
    before, stored under the requested name only. *)
Lemma resolve_slot e s w fuel name t :
  facade_ok e s w →
  find_table name (db_tables e s) = Some t →
  has_primary_key t = true →
  dict w !! name = Some (VStr "None") →
  is_property name = false →
  ∃ a w', attr (S (S fuel)) name w = (Ok (VClass a), w')
          ∧ dict w' = <[name := VClass a]> (dict w)
          ∧ trace w' = trace w ++ [ReflectOnly name]
          ∧ (length (heap w) ≤ a < length (heap w'))%nat
          ∧ facade_ok e s w'.
Proof.
  intros Hok Hf Hpk Hd Hp.
  destruct w as [d m h tr]. pose proof Hok as [_ _ _ (held & Hm & Hheld)].
  simpl in Hm, Hd. subst m.
  destruct (reflect_table_found e s d held h tr fuel name t Hok Hheld Hf Hpk)
    as (a & h' & Hr & Hrange).
  exists a, (World (<[name := VClass a]> d)
               (Some (MetaData e s (held_after name t held))) h'
               (tr ++ [ReflectOnly name])).
  split; [|split; [|split; [|split]]]; cycle 1.
  - reflexivity.
  - reflexivity.
  - exact Hrange.
  - eapply facade_ok_insert; [exact Hok|exact Hd|reflexivity|].
    eexists. split; [reflexivity|]. by apply held_after_ok.
  - rewrite getattr_S. erewrite try_except_ok; [reflexivity|].
    unfold __getattribute__.
    erewrite and_then_ok; [|by apply object_getattribute_dict].
    cbn [is_placeholder]. rewrite bool_decide_eq_true_2 by done.
    erewrite and_then_ok.
    + apply object_getattribute_dict; [done|]. cbn [dict]. apply lookup_insert_eq.
    + erewrite try_except_ok; [reflexivity|].
      erewrite and_then_ok; [|by erewrite call_reflect_table_eq].
      unfold setattr. rewrite Hp. reflexivity.
Qed.

(** The first read of an unresolved slot whose name is a table without a
    primary key raises the resolver's [ValueError]; the slot stays
    unresolved. *)
Lemma resolve_slot_unmapped e s w fuel name t :
  facade_ok e s w →
  find_table name (db_tables e s) = Some t →
  has_primary_key t = false →
  dict w !! name = Some (VStr "None") →
  is_property name = false →
  ∃ w', attr (S (S fuel)) name w
        = (Raise (ValueError (missing_primary_key_message name
                    (reprlib_repr (VNames (map tname (db_tables e s)))))), w')
        ∧ dict w' = dict w
        ∧ trace w' = trace w ++ [ReflectOnly name].
Proof.
  intros Hok Hf Hpk Hd Hp.
  destruct w as [d m h tr]. pose proof Hok as [_ _ _ (held & Hm & Hheld)].
  simpl in Hm, Hd. subst m.
  destruct (reflect_table_unmapped e s d held h tr fuel name t Hok Hheld Hf Hpk)
    as (h' & Hr).
  exists (World d (Some (MetaData e s (held_after name t held))) h'
                (tr ++ [ReflectOnly name])).
  split; [|split; reflexivity].
  rewrite getattr_S. erewrite try_except_passed; [reflexivity| |reflexivity].
  unfold __getattribute__.
  erewrite and_then_ok; [|by apply object_getattribute_dict].
  cbn [is_placeholder]. rewrite bool_decide_eq_true_2 by done.
  erewrite and_then_raise; [reflexivity|].
  erewrite try_except_passed; [reflexivity| |reflexivity].
  by erewrite and_then_raise; [|by erewrite call_reflect_table_eq].
Qed.

(** A name that is neither on the instance nor on the class reaches
    [__getattr__], which raises the descriptive [AttributeError]. *)
Lemma unknown_name e s w fuel name :
  facade_ok e s w →
  dict w !! name = None →
  name ∉ class_names →
  is_property name = false →
  attr (S (S fuel)) name w
  = (Raise (AttributeError (unknown_table_message name
              (reprlib_repr (VNames (map tname (db_tables e s)))))), w).
Proof.
  intros Hok Hd Hc Hp. rewrite getattr_S.
  erewrite try_except_caught; cycle 1.
  - unfold __getattribute__. erewrite and_then_raise; [reflexivity|].
    unfold object_getattribute, is_property in *.
    destruct (assoc_get name properties); [done|].
    unfold and_then, get. rewrite Hd. by rewrite bool_decide_eq_false_2.
  - reflexivity.
  - unfold __getattr__. by erewrite and_then_ok; [|by eapply read_tables].
Qed.

(** *** Bulk insert *)

Section Insert.

Context (e : engine) (a : nat) (c : class_obj) (w : world) (fuel : nat).
Hypothesis Hready : insert_ready e a c w.

Lemma read_dialect : dialect (attr (S fuel)) w = (Ok (dialect_name e), w).
Proof.
  destruct Hready as [Hb _ _]. unfold dialect.
  by erewrite and_then_ok; [|by apply getattr_hit].
Qed.

Lemma read_table : __table__ (VClass a) w = (Ok (cls_table c), w).
Proof.
  destruct Hready as [_ _ Ht]. unfold __table__, and_then, get. by rewrite Ht.
Qed.

(** Once [ignore_str] is bound, the statement carries it as its only prefix
    and is handed to the session. *)
Lemma insert_executes obj rows ignore index p :
  validate obj w = (Ok rows, w) →
  ignore_str_of (attr (S fuel)) (VClass a) ignore index w = (Ok (Some p), w) →
  insert (attr (S fuel)) (VClass a) obj ignore index w
  = (Ok tt, executed w (Insert (tname (cls_table c)) [p] rows)).
Proof.
  intros Hv Hi. unfold insert.
  erewrite and_then_ok; [|done]. erewrite and_then_ok; [|done].
  destruct Hready as [_ Hs _].
  erewrite and_then_ok; [|by apply getattr_hit].
  erewrite and_then_ok; [|done].
  erewrite and_then_ok; [|apply read_table].
  by erewrite and_then_ok.
Qed.

(** When a branch raises, nothing is handed to the session. *)
Lemma insert_raises obj rows ignore index x :
  validate obj w = (Ok rows, w) →
  ignore_str_of (attr (S fuel)) (VClass a) ignore index w = (Raise x, w) →
  insert (attr (S fuel)) (VClass a) obj ignore index w = (Raise x, w).
Proof.
  intros Hv Hi. unfold insert.
  erewrite and_then_ok; [|done]. by erewrite and_then_raise.
Qed.

Lemma ignore_str_mysql ignore index :
  dialect_name e = "mysql" →
  ignore_str_of (attr (S fuel)) (VClass a) ignore index w
  = (Ok (Some (if ignore then "IGNORE" else "")), w).
Proof.
  intros Hd. unfold ignore_str_of.
  erewrite and_then_ok; [|apply read_dialect]. by rewrite Hd.
Qed.

Lemma ignore_str_sqlite ignore index :
  dialect_name e = "sqlite" →
  ignore_str_of (attr (S fuel)) (VClass a) ignore index w
  = (Ok (Some (if ignore then "OR REPLACE" else "")), w).
Proof.
  intros Hd. unfold ignore_str_of.
  do 2 (erewrite and_then_ok; [|apply read_dialect]; rewrite Hd; dialect_case).
  done.
Qed.

Lemma ignore_str_oracle ignore index :
  dialect_name e = "oracle" →
  ignore_str_of (attr (S fuel)) (VClass a) ignore index w
  = and_then (oracle_ignore_str (VClass a) ignore index) (λ s, ret (Some s)) w.
Proof.
  intros Hd. unfold ignore_str_of.
  do 3 (erewrite and_then_ok; [|apply read_dialect]; rewrite Hd; dialect_case).
  done.
Qed.

Lemma ignore_str_mssql ignore index :
  dialect_name e = "mssql" →
  ignore_str_of (attr (S fuel)) (VClass a) ignore index w
  = if ignore then (Raise (ValueError unsupported_ignore_message), w)
    else (Ok (Some ""), w).
Proof.
  intros Hd. unfold ignore_str_of.
  do 4 (erewrite and_then_ok; [|apply read_dialect]; rewrite Hd; dialect_case).
  by destruct ignore.
Qed.

Lemma ignore_str_other ignore index :
  dialect_name e ≠ "mysql" → dialect_name e ≠ "sqlite" →
  dialect_name e ≠ "oracle" → dialect_name e ≠ "mssql" →
  ignore_str_of (attr (S fuel)) (VClass a) ignore index w = (Ok None, w).
Proof.
  intros H1 H2 H3 H4. unfold ignore_str_of.
  erewrite and_then_ok; [|apply read_dialect]. rewrite bool_decide_eq_false_2 by done.
  erewrite and_then_ok; [|apply read_dialect]. rewrite bool_decide_eq_false_2 by done.
  erewrite and_then_ok; [|apply read_dialect]. rewrite bool_decide_eq_false_2 by done.
  erewrite and_then_ok; [|apply read_dialect]. by rewrite bool_decide_eq_false_2.
Qed.

Lemma oracle_explicit i :
  oracle_ignore_str (VClass a) true (Some i) w
  = (Ok (oracle_hint (tname (cls_table c)) (Some i)), w).
Proof.
  unfold oracle_ignore_str. cbn [andb]. rewrite bool_decide_eq_false_2 by done.
  erewrite and_then_ok; [|done]. by erewrite and_then_ok; [|apply read_table].
Qed.

Lemma oracle_first_unique ix :
  find unique (indexes (cls_table c)) = Some ix →
  oracle_ignore_str (VClass a) true None w
  = (Ok (oracle_hint (tname (cls_table c)) (Some (iname ix))), w).
Proof.
  intros Hix. unfold oracle_ignore_str. cbn [andb].
  rewrite bool_decide_eq_true_2 by done.
  erewrite and_then_ok.
  - by erewrite and_then_ok; [|apply read_table].
  - erewrite and_then_ok; [|apply read_table].
    unfold first_unique. by rewrite Hix.
Qed.

Lemma oracle_first_constraint c0 cs :
  find unique (indexes (cls_table c)) = None →
  constraints (cls_table c) = c0 :: cs →
  oracle_ignore_str (VClass a) true None w
  = (Ok (oracle_hint (tname (cls_table c)) (cname c0)), w).
Proof.
  intros Hix Hcs. unfold oracle_ignore_str. cbn [andb].
  rewrite bool_decide_eq_true_2 by done.
  erewrite and_then_ok.
  - by erewrite and_then_ok; [|apply read_table].
  - erewrite and_then_ok; [|apply read_table].
    unfold first_unique. rewrite Hix. cbn [fmap option_fmap option_map].
    erewrite and_then_ok; [|apply read_table]. by rewrite Hcs.
Qed.

Lemma oracle_no_ignore index :
  oracle_ignore_str (VClass a) false index w = (Ok "", w).
Proof. unfold oracle_ignore_str. cbn [andb]. by erewrite and_then_ok. Qed.

End Insert.

Lemma validate_pure obj w : ∃ r, validate obj w = (r, w).
Proof.
  destruct obj as [labels cells| |]; simpl; eauto.
  destruct (empty labels cells); eauto.
Qed.

(** C2: with [ignore=True] the statement handed to the session carries
    exactly one prefix: [IGNORE] on mysql, [OR REPLACE] on sqlite, and on
    oracle the [IGNORE_ROW_ON_DUPKEY_INDEX] hint naming the explicit index if
    one is given, else the table's first unique index, else the table's
    first constraint. *)
Theorem insert_ignore_fragment e a c w fuel obj rows index :
  insert_ready e a c w →
  validate obj w = (Ok rows, w) →
  let t := cls_table c in
  let submits p :=
    insert (attr (S fuel)) (VClass a) obj true index w
    = (Ok tt, executed w (Insert (tname t) [p] rows)) in
  (dialect_name e = "mysql" → submits "IGNORE")
  ∧ (dialect_name e = "sqlite" → submits "OR REPLACE")
  ∧ (dialect_name e = "oracle" →
       (∀ i, index = Some i → submits (oracle_hint (tname t) (Some i)))
       ∧ (∀ ix, index = None → find unique (indexes t) = Some ix →
                submits (oracle_hint (tname t) (Some (iname ix))))
       ∧ (∀ c0 cs, index = None → find unique (indexes t) = None →
                   constraints t = c0 :: cs →
                   submits (oracle_hint (tname t) (cname c0)))).
Proof.
  intros Hready Hv t submits. subst submits t. cbv beta.
  split; [|split].
  - intros Hd. eapply insert_executes; [done|done|].
    by erewrite ignore_str_mysql.
  - intros Hd. eapply insert_executes; [done|done|].
    by erewrite ignore_str_sqlite.
  - intros Hd. split; [|split].
    + intros i ->. eapply insert_executes; [done|done|].
      erewrite ignore_str_oracle; [|done|done].
      by erewrite and_then_ok; [|by eapply oracle_explicit].
    + intros ix -> Hix. eapply insert_executes; [done|done|].
      erewrite ignore_str_oracle; [|done|done].
      by erewrite and_then_ok; [|by eapply oracle_first_unique].
    + intros c0 cs -> Hix Hcs. eapply insert_executes; [done|done|].
      erewrite ignore_str_oracle; [|done|done].
      by erewrite and_then_ok; [|by eapply oracle_first_constraint].
Qed.

(** C4: on mssql with [ignore=True] every call raises [ValueError] and
    nothing is handed to the session; once the input has passed validation
    the error is the one that tells the caller to set [IGNORE_DUP_KEY] at
    table creation.  With [ignore=False] the statement is executed with the
    empty fragment. *)
Theorem insert_mssql e a c w fuel index :
  insert_ready e a c w →
  dialect_name e = "mssql" →
  (∀ obj, ∃ msg, insert (attr (S fuel)) (VClass a) obj true index w
                 = (Raise (ValueError msg), w))
  ∧ (∀ obj rows, validate obj w = (Ok rows, w) →
       insert (attr (S fuel)) (VClass a) obj true index w
       = (Raise (ValueError unsupported_ignore_message), w))
  ∧ (∀ obj rows, validate obj w = (Ok rows, w) →
       insert (attr (S fuel)) (VClass a) obj false index w
       = (Ok tt, executed w (Insert (tname (cls_table c)) [""] rows))).
Proof.
  intros Hready Hd.
  assert (∀ obj rows, validate obj w = (Ok rows, w) →
            insert (attr (S fuel)) (VClass a) obj true index w
            = (Raise (ValueError unsupported_ignore_message), w)) as Hraise.
  { intros obj rows Hv. eapply insert_raises; [done|].
    by erewrite ignore_str_mssql. }
  split; [|split; [done|]].
  - intros obj. destruct (validate_pure obj w) as [[rows|x] Hv].
    + eexists. by eapply Hraise.
    + assert (∃ msg, x = ValueError msg) as [msg ->].
      { destruct obj as [labels cells| |]; simpl in Hv.
        - destruct (empty labels cells); inversion Hv; eauto.
        - inversion Hv.
        - inversion Hv; eauto. }
      exists msg. unfold insert. by erewrite and_then_raise.
  - intros obj rows Hv. eapply insert_executes; [done|done|].
    by erewrite ignore_str_mssql.
Qed.

(** *** What a read can return *)

Lemma reflect_table_result self_ name w t w' :
  _reflect_table reprlib_repr self_ name w = (Ok t, w') → ∃ a, t = VClass a.
Proof.
  unfold _reflect_table, and_then, try_except, ret, raise. intros H.
  repeat case_match; simplify_eq; eauto.
Qed.

Lemma call_reflect_table_result self_ name w t w' :
  call_reflect_table reprlib_repr self_ name w = (Ok t, w') → ∃ a, t = VClass a.
Proof.
  unfold call_reflect_table, and_then, raise. intros H.
  repeat case_match; simplify_eq; by eapply reflect_table_result.
Qed.

Lemma resolve_branch self_ n name w w' :
  is_property name = false →
  and_then (call_reflect_table reprlib_repr self_ n) (λ t, setattr name t) w
  = (Ok tt, w') →
  ∃ a, dict w' !! name = Some (VClass a).
Proof.
  intros Hp. unfold and_then, setattr. rewrite Hp. intros H.
  destruct (call_reflect_table reprlib_repr self_ n w) as [[t|x] w1] eqn:E;
    [|done].
  apply call_reflect_table_result in E as [a ->].
  exists a. unfold set_dict, modify in H. simplify_eq. cbn [dict].
  apply lookup_insert_eq.
Qed.

Lemma object_getattribute_result self_ name w v w' :
  is_property name = false →
  object_getattribute self_ name w = (Ok v, w') →
  w' = w ∧ (dict w !! name = Some v
            ∨ (dict w !! name = None ∧ name ∈ class_names ∧ v = VMethod name)).
Proof.
  unfold is_property, object_getattribute, and_then, get, ret, raise.
  destruct (assoc_get name properties); [done|]. intros _ H.
  destruct (dict w !! name) as [v0|] eqn:E.
  - simplify_eq. eauto.
  - case_bool_decide; simplify_eq. eauto.
Qed.

(** A read that returns, returns what the slot holds afterwards (or the
    bound method, for a name found on the class only), and never the
    placeholder. *)
Lemma getattribute_result self_ name w v w' :
  is_property name = false →
  __getattribute__ reprlib_repr self_ name w = (Ok v, w') →
  is_placeholder v = false
  ∧ (dict w' !! name = Some v
     ∨ (dict w' !! name = None ∧ name ∈ class_names ∧ v = VMethod name)).
Proof.
  intros Hp H. unfold __getattribute__ in H.
  apply and_then_inv in H as (x & w0 & E0 & H).
  apply and_then_inv in H as ([] & w1 & E1 & H).
  apply object_getattribute_result in E0 as [-> Hx]; [|done].
  apply object_getattribute_result in H as [-> H]; [|done].
  destruct (is_placeholder x) eqn:Ex.
  - assert (∃ a, dict w1 !! name = Some (VClass a)) as [a Ha].
    { apply try_except_inv in E1 as [E1|(? & ? & _ & E1)];
        [by eapply resolve_branch|].
      apply try_except_inv in E1 as [E1|(? & ? & _ & E1)];
        by eapply resolve_branch. }
    destruct H as [H|[H _]]; [|congruence].
    rewrite Ha in H. simplify_eq. eauto.
  - unfold ret in E1. simplify_eq. split; [|done].
    destruct Hx as [Hx|(Hx & _ & ->)], H as [H|(H & _ & ->)];
      simplify_eq; done.
Qed.

(** Whatever the state, once a read of a name has returned, reading the
    same name again returns the identical value and changes nothing. *)
Lemma read_is_cached fuel name w v w' :
  is_property name = false →
  attr (S fuel) name w = (Ok v, w') →
  ∀ fuel', attr (S fuel') name w' = (Ok v, w').
Proof.
  intros Hp. rewrite getattr_S. unfold try_except.
  destruct (__getattribute__ _ _ name w) as [[v0|x] w0] eqn:E.
  - intros [= -> ->] fuel'.
    apply getattribute_result in E as [Hv [Hd|(Hd & Hc & ->)]]; [| |done].
    + by apply getattr_hit.
    + by apply getattr_method.
  - destruct (is_AttributeError x); [|done].
    unfold __getattr__, and_then, raise. intros H. by repeat case_match.
Qed.

(** *** Lazy resolution through the facade *)

(** C1 (amended): for a catalog table with a primary key, the first read of
    its unresolved slot invokes the resolver once and stores the handle
    under the spelling that was read, leaving every other slot as it was;
    every later read of that spelling returns the identical handle and
    changes nothing, so the resolver is not invoked again. *)
Theorem slot_resolved_once_per_spelling e s w fuel name t :
  facade_ok e s w →
  find_table name (db_tables e s) = Some t →
  has_primary_key t = true →
  dict w !! name = Some (VStr "None") →
  is_property name = false →
  ∃ a w', attr (S (S fuel)) name w = (Ok (VClass a), w')
          ∧ trace w' = trace w ++ [ReflectOnly name]
          ∧ (∀ n, n ≠ name → dict w' !! n = dict w !! n)
          ∧ (∀ fuel', attr (S fuel') name w' = (Ok (VClass a), w'))
          ∧ (∀ n f1 v w1, is_property n = false →
               attr (S f1) n w' = (Ok v, w1) →
               ∀ f2, attr (S f2) n w1 = (Ok v, w1)).
Proof.
  intros Hok Hf Hpk Hd Hp.
  destruct (resolve_slot e s w fuel name t Hok Hf Hpk Hd Hp)
    as (a & w' & Hr & Hd' & Htr & _ & _).
  exists a, w'. split; [done|]. split; [done|]. split; [|split].
  - intros n Hn. by rewrite Hd', lookup_insert_ne.
  - intros fuel'. apply getattr_hit; [done| |done].
    rewrite Hd'. apply lookup_insert_eq.
  - intros n f1 v w1 Hpn Hread. by eapply read_is_cached.
Qed.

Lemma messages_differ name n l l' :
  missing_primary_key_message name l ≠ unknown_table_message n l'.
Proof.
  unfold missing_primary_key_message, unknown_table_message.
  cbn [String.append]. intros H. discriminate H.
Qed.

(** C5: resolving a table of the database that has no primary key raises
    [ValueError] with the primary-key message, both from the resolver and
    through the facade.  A name that is not a table of the database fails
    differently: the resolver raises [InvalidRequestError], an unregistered
    name read through the facade raises [AttributeError], and the texts of
    the two messages differ. *)
Theorem missing_primary_key_is_distinct e s w fuel name t :
  facade_ok e s w →
  find_table name (db_tables e s) = Some t →
  has_primary_key t = false →
  dict w !! name = Some (VStr "None") →
  is_property name = false →
  let tables := reprlib_repr (VNames (map tname (db_tables e s))) in
  let missing := ValueError (missing_primary_key_message name tables) in
  fst (_reflect_table reprlib_repr (attr (S fuel)) name w) = Raise missing
  ∧ fst (attr (S (S fuel)) name w) = Raise missing
  ∧ (∀ n, find_table n (db_tables e s) = None →
       fst (_reflect_table reprlib_repr (attr (S fuel)) n w)
       = Raise InvalidRequestError)
  ∧ (∀ n, dict w !! n = None → n ∉ class_names → is_property n = false →
       fst (attr (S (S fuel)) n w)
       = Raise (AttributeError (unknown_table_message n tables)))
  ∧ (∀ n, missing ≠ InvalidRequestError
          ∧ missing ≠ AttributeError (unknown_table_message n tables)
          ∧ missing_primary_key_message name tables
            ≠ unknown_table_message n tables).
Proof.
  intros Hok Hf Hpk Hd Hp tables missing. subst tables missing.
  split; [|split; [|split; [|split]]].
  - destruct w as [d m h tr]. pose proof Hok as [_ _ _ (held & Hm & Hheld)].
    simpl in Hm. subst m.
    destruct (reflect_table_unmapped e s d held h tr fuel name t Hok Hheld Hf Hpk)
      as (h' & ->). done.
  - destruct (resolve_slot_unmapped e s w fuel name t Hok Hf Hpk Hd Hp)
      as (w' & -> & _). done.
  - intros n Hn. destruct w as [d m h tr].
    pose proof Hok as [_ _ _ (held & Hm & Hheld)]. simpl in Hm. subst m.
    by erewrite reflect_table_missing.
  - intros n Hn Hc Hpn. by erewrite unknown_name.
  - intros n. split; [done|]. split; [|apply messages_differ]. done.
Qed.

(** *** Whole-schema reflection *)

Lemma reflect_all_spec e s held d h tr :
  let fresh := filter (λ t, has_table (tname t) held = false) (db_tables e s) in
  metadata_reflect_all VMetaData (World d (Some (MetaData e s held)) h tr)
  = (Ok tt, World d (Some (MetaData e s (held ++ fresh))) h (tr ++ [ReflectAll])).
Proof. reflexivity. Qed.

Lemma allocate_keys ts h : map fst (fst (allocate ts h)) = map tname ts.
Proof.
  revert h. induction ts as [|t ts IH]; intros h; simpl; [done|].
  specialize (IH (h ++ [mapped_class (length h) t])).
  destruct (allocate ts _) as [cs h']. simpl in *. by rewrite IH.
Qed.

Lemma materialize_spec k a d m h tr :
  (∀ n, n ∈ aliases k → is_property n = false) →
  materialize (k, a) (World d m h tr)
  = (Ok tt, World (<[upper k := VClass a]> (<[lower k := VClass a]>
                     (<[k := VClass a]> d))) m h tr).
Proof.
  intros Hp. unfold materialize, setattr.
  rewrite !Hp by (unfold aliases; set_solver). reflexivity.
Qed.

Lemma materialize_loop classes : ∀ d m h tr,
  (∀ k a n, (k, a) ∈ classes → n ∈ aliases k → is_property n = false) →
  ∃ d', for_each classes materialize (World d m h tr) = (Ok tt, World d' m h tr)
        ∧ (∀ n a, d !! n = Some (VClass a) → ∃ a', d' !! n = Some (VClass a'))
        ∧ (∀ k a n, (k, a) ∈ classes → n ∈ aliases k →
                    ∃ a', d' !! n = Some (VClass a')).
Proof.
  induction classes as [|[k a] classes IH]; intros d m h tr Hp.
  - exists d. split; [done|]. split; [by eauto|]. by intros ??? ?%elem_of_nil.
  - set (d1 := <[upper k := VClass a]> (<[lower k := VClass a]>
                 (<[k := VClass a]> d))).
    assert (∀ n, (∃ a0, d !! n = Some (VClass a0)) ∨ n ∈ aliases k →
                 ∃ a', d1 !! n = Some (VClass a')) as Hd1.
    { intros n Hn. unfold d1. rewrite !lookup_insert.
      repeat case_decide; eauto. destruct Hn as [?|Hn]; [done|].
      unfold aliases in Hn.
      repeat (apply elem_of_cons in Hn as [->|Hn]; [done|]).
      by apply elem_of_nil in Hn. }
    destruct (IH d1 m h tr) as (d' & Hloop & Hkeep & Hnew).
    { intros k' a' n Hin. apply (Hp k' a'). by right. }
    exists d'. split; [|split].
    + cbn [for_each]. erewrite and_then_ok; [exact Hloop|].
      apply materialize_spec. intros n Hn. eapply Hp; [left|done].
    + intros n a0 Hn. destruct (Hd1 n) as [a1 Ha1]; eauto.
    + intros k' a' n [[= -> ->]|Hin]%elem_of_cons Hn.
      * destruct (Hd1 n) as [a1 Ha1]; eauto.
      * eauto.
Qed.

(** C7 (amended): [reflect()] performs one whole-schema reflection and
    stores a handle under the three spellings of every catalog table that
    has a primary key; reading any of them afterwards returns a handle and
    leaves the state, and so the trace of reflections, unchanged. *)
Theorem reflect_materializes_mapped_tables e s w fuel :
  facade_ok e s w →
  well_named (db_tables e s) = true →
  ∃ w', reflect (attr (S fuel)) w = (Ok tt, w')
        ∧ trace w' = trace w ++ [ReflectAll]
        ∧ ∀ name t, find_table name (db_tables e s) = Some t →
                    has_primary_key t = true →
                    ∀ n fuel', n ∈ aliases name →
                      ∃ a, attr (S fuel') n w' = (Ok (VClass a), w').
Proof.
  intros Hok Hwn. destruct w as [d m h tr].
  assert (∀ t n, t ∈ db_tables e s → n ∈ aliases (tname t) →
                 is_property n = false) as Hnames.
  { intros t n Ht Hn. unfold well_named in Hwn.
    rewrite forallb_forall in Hwn. apply list_elem_of_In, Hwn in Ht.
    rewrite forallb_forall in Ht. apply list_elem_of_In, Ht in Hn.
    by apply negb_true_iff in Hn. }
  pose proof Hok as [Hmd _ _ (held & Hm & Hheld)]. simpl in Hm, Hmd. subst m.
  set (fresh := filter (λ t, has_table (tname t) held = false) (db_tables e s)).
  set (ts := filter (λ t, has_primary_key t = true) (held ++ fresh)).
  assert (∀ t, t ∈ ts → t ∈ db_tables e s) as Hts.
  { intros t [_ [Ht|Ht]%elem_of_app]%list_elem_of_filter.
    - pose proof (proj1 (Forall_forall _ _) Hheld t Ht) as Hf. simpl in Hf.
      by apply find_table_Some in Hf as [? _].
    - by apply list_elem_of_filter in Ht as [_ ?]. }
  destruct (materialize_loop (fst (allocate ts h)) d
              (Some (MetaData e s (held ++ fresh))) (snd (allocate ts h))
              (tr ++ [ReflectAll])) as (d' & Hloop & _ & Hnew).
  { intros k a n Hin. apply (list_elem_of_fmap_2 fst) in Hin. simpl in Hin.
    rewrite allocate_keys in Hin. apply list_elem_of_fmap in Hin as (t & -> & Ht).
    apply Hnames. by apply Hts. }
  eexists. split; [|split].
  - unfold reflect. erewrite and_then_ok; [|by eapply read_metadata].
    erewrite and_then_ok; [|apply reflect_all_spec].
    erewrite and_then_ok; [|by apply getattr_hit].
    erewrite and_then_ok; [|apply automap_prepare_spec]. exact Hloop.
  - reflexivity.
  - intros name t Hf Hpk n fuel' Hn.
    destruct (find_table_Some _ _ _ Hf) as [Hdb Hname].
    assert (t ∈ ts) as Ht.
    { apply list_elem_of_filter. split; [done|]. apply elem_of_app.
      destruct (has_table name held) eqn:E.
      - left. apply has_table_true in E as (t' & Ht' & Hn').
        pose proof (proj1 (Forall_forall _ _) Hheld t' Ht') as Hf'. simpl in Hf'.
        rewrite Hn', Hf in Hf'. by injection Hf' as ->.
      - right. apply list_elem_of_filter. by rewrite Hname. }
    assert (name ∈ map fst (fst (allocate ts h))) as Hkey.
    { rewrite allocate_keys, <- Hname. by apply list_elem_of_fmap_2. }
    apply list_elem_of_fmap in Hkey as ([k a] & Hk & Hin). simpl in Hk. subst k.
    destruct (Hnew name a n Hin Hn) as [a' Ha'].
    exists a'. apply getattr_hit; [|done|done].
    eapply Hnames; [exact Hdb|by rewrite Hname].
Qed.

(** *** Other dialects, empty input *)

(** C3 (what the code does instead): on a dialect that none of the four
    branches names, [ignore_str] is never bound; the call raises
    [UnboundLocalError] whatever the flag, and nothing is handed to the
    session. *)
Theorem insert_other_dialect e a c w fuel obj rows ignore index :
  insert_ready e a c w →
  validate obj w = (Ok rows, w) →
  dialect_name e ∉ ["mysql"; "sqlite"; "oracle"; "mssql"] →
  insert (attr (S fuel)) (VClass a) obj ignore index w
  = (Raise (UnboundLocalError "ignore_str"), w).
Proof.
  intros Hready Hv Hd. unfold insert.
  erewrite and_then_ok; [|done].
  erewrite and_then_ok;
    [|eapply ignore_str_other; [done|..]; intros Heq; apply Hd; rewrite Heq;
      set_solver].
  pose proof Hready as [_ Hs _].
  erewrite and_then_ok; [|by apply getattr_hit].
  erewrite and_then_ok; [|done].
  erewrite and_then_ok; [|by eapply read_table]. done.
Qed.

(** C10 (amended): the empty list passes validation while an empty
    DataFrame is rejected before anything else happens; with the empty list
    a statement with no rows is handed to the session on mysql and sqlite,
    on oracle and mssql when [ignore=False], and on oracle with
    [ignore=True] when an index name is at hand. *)
Theorem insert_empty_list e a c w fuel ignore index :
  insert_ready e a c w →
  let t := cls_table c in
  validate (PyList []) w = (Ok [], w)
  ∧ (∀ labels cells, empty labels cells = true →
       insert (attr (S fuel)) (VClass a) (DataFrame labels cells) ignore index w
       = (Raise (ValueError empty_dataframe_message), w))
  ∧ (dialect_name e = "mysql" ∨ dialect_name e = "sqlite"
     ∨ (ignore = false ∧ (dialect_name e = "oracle" ∨ dialect_name e = "mssql"))
     ∨ (dialect_name e = "oracle"
        ∧ (is_Some index ∨ is_Some (find unique (indexes t))
           ∨ constraints t ≠ [])) →
     ∃ p, insert (attr (S fuel)) (VClass a) (PyList []) ignore index w
          = (Ok tt, executed w (Insert (tname t) [p] []))).
Proof.
  intros Hready t. subst t. split; [done|]. split.
  - intros labels cells Hempty. unfold insert.
    erewrite and_then_raise; [done|]. simpl. by rewrite Hempty.
  - intros Hcase.
    assert (∃ p, ignore_str_of (attr (S fuel)) (VClass a) ignore index w
                 = (Ok (Some p), w)) as [p Hp].
    { destruct Hcase as [Hd|[Hd|[[-> [Hd|Hd]]|[Hd Hidx]]]].
      - eexists. by eapply ignore_str_mysql.
      - eexists. by eapply ignore_str_sqlite.
      - eexists. erewrite ignore_str_oracle; [|done|done].
        by erewrite and_then_ok; [|by eapply oracle_no_ignore].
      - eexists. by erewrite ignore_str_mssql.
      - destruct ignore.
        + destruct index as [i|].
          * eexists. erewrite ignore_str_oracle; [|done|done].
            by erewrite and_then_ok; [|by eapply oracle_explicit].
          * destruct (find unique (indexes (cls_table c))) as [ix|] eqn:Hix.
            -- eexists. erewrite ignore_str_oracle; [|done|done].
               by erewrite and_then_ok; [|by eapply oracle_first_unique].
            -- destruct (constraints (cls_table c)) as [|c0 cs] eqn:Hcs.
               ++ destruct Hidx as [[? [=]]|[[? [=]]|?]]; done.
               ++ eexists. erewrite ignore_str_oracle; [|done|done].
                  by erewrite and_then_ok; [|by eapply oracle_first_constraint].
        + eexists. erewrite ignore_str_oracle; [|done|done].
          by erewrite and_then_ok; [|by eapply oracle_no_ignore]. }
    exists p. by eapply insert_executes.
Qed.

(** *** Construction *)

(** C8 (amended): the schema string ['None'] — capital N, compared exactly —
    is replaced by no schema before anything is stored: constructing with it
    is constructing without a schema. *)
Theorem init_schema_None_string create_engine self_ bind w :
  __init__ create_engine self_ bind (Some "None") w
  = __init__ create_engine self_ bind None w.
Proof. by destruct bind. Qed.

(** C9: construction with [bind=None] stores nothing; on the object it
    leaves, reading any name that is not found on the class does not end in
    the descriptive [AttributeError]: [__getattr__] reads [self.tables], which
    is not there either, and the reads nest until the interpreter's recursion
    limit is hit, whatever that limit is. *)
Theorem unbound_read_hits_recursion_limit create_engine schema fuel name :
  name ∉ class_names →
  __init__ create_engine (attr fuel) BindNone schema empty_world
  = (Ok tt, empty_world)
  ∧ attr fuel name empty_world = (Raise RecursionError, empty_world).
Proof.
  intros Hc. split; [done|]. revert name Hc.
  induction fuel as [|fuel IH]; intros name Hc; [done|].
  rewrite getattr_S. unfold __getattribute__, object_getattribute.
  destruct (assoc_get name properties) as [field|] eqn:Hprop.
  - assert (field ∉ class_names) as Hfield.
    { unfold properties in Hprop. simpl in Hprop.
      repeat case_bool_decide; simplify_eq; not_a_class_name. }
    erewrite try_except_passed; [done| |done].
    by erewrite and_then_raise; [|by apply IH].
  - erewrite try_except_caught; cycle 1.
    + erewrite and_then_raise; [done|]. unfold and_then, get.
      cbn [dict empty_world]. rewrite lookup_empty.
      by rewrite bool_decide_eq_false_2.
    + done.
    + unfold __getattr__. erewrite and_then_raise; [done|].
      apply IH. not_a_class_name.
Qed.

(** *** Construction establishes the invariant *)

Lemma init_steps create_engine e schema fuel :
  __init__ create_engine (attr (S fuel)) (BindEngine e) schema empty_world
  = register_slots (VNames (map tname (db_tables e (kept_schema schema))))
      (World (bound_dict e (kept_schema schema))
             (Some (MetaData e (kept_schema schema) [])) [] []).
Proof.
  unfold __init__, kept_schema.
  destruct (bool_decide (schema = Some "None")); reflexivity.
Qed.

Lemma register_slot_spec k d m h tr :
  (∀ n, n ∈ aliases k → is_property n = false) →
  register_slot k (World d m h tr)
  = (Ok tt, World (<[upper k := VStr "None"]> (<[lower k := VStr "None"]>
                     (<[k := VStr "None"]> d))) m h tr).
Proof.
  intros Hp. unfold register_slot, setattr.
  rewrite !Hp by (unfold aliases; set_solver). reflexivity.
Qed.

Lemma register_loop l : ∀ d m h tr,
  (∀ k n, k ∈ l → n ∈ aliases k → is_property n = false) →
  ∃ d', for_each l register_slot (World d m h tr) = (Ok tt, World d' m h tr)
        ∧ (∀ n, d !! n = Some (VStr "None") → d' !! n = Some (VStr "None"))
        ∧ (∀ k n, k ∈ l → n ∈ aliases k → d' !! n = Some (VStr "None"))
        ∧ (∀ n, (∀ k, k ∈ l → n ∉ aliases k) → d' !! n = d !! n).
Proof.
  induction l as [|k l IH]; intros d m h tr Hp.
  - exists d. split; [done|]. split; [done|]. split; [|done].
    by intros ?? ?%elem_of_nil.
  - set (d1 := <[upper k := VStr "None"]> (<[lower k := VStr "None"]>
                 (<[k := VStr "None"]> d))).
    assert (∀ n, d !! n = Some (VStr "None") ∨ n ∈ aliases k →
                 d1 !! n = Some (VStr "None")) as Hd1.
    { intros n Hn. unfold d1. rewrite !lookup_insert.
      repeat case_decide; eauto. destruct Hn as [?|Hn]; [done|].
      unfold aliases in Hn.
      repeat (apply elem_of_cons in Hn as [->|Hn]; [done|]).
      by apply elem_of_nil in Hn. }
    assert (∀ n, n ∉ aliases k → d1 !! n = d !! n) as Hd1'.
    { intros n Hn. unfold d1, aliases in *.
      rewrite !lookup_insert_ne; [done|..]; intros <-; apply Hn; set_solver. }
    destruct (IH d1 m h tr) as (d' & Hloop & Hkeep & Hnew & Hframe).
    { intros k' n Hin. apply Hp. by right. }
    exists d'. split; [|split; [|split]].
    + cbn [for_each]. erewrite and_then_ok; [exact Hloop|].
      apply register_slot_spec. intros n Hn. eapply Hp; [left|done].
    + intros n Hn. apply Hkeep, Hd1. by left.
    + intros k' n [->|Hin]%elem_of_cons Hn.
      * apply Hkeep, Hd1. by right.
      * eauto.
    + intros n Hn. rewrite Hframe.
      * apply Hd1'. apply Hn. left.
      * intros k' Hk'. apply Hn. by right.
Qed.

Lemma catalog_ok_spec db t n :
  catalog_ok db = true → t ∈ db → n ∈ aliases (tname t) → n ∉ own_names.
Proof.
  unfold catalog_ok. rewrite forallb_forall. intros Hall Ht Hn.
  apply list_elem_of_In, Hall in Ht. rewrite forallb_forall in Ht.
  apply list_elem_of_In, Ht, negb_true_iff in Hn.
  by apply bool_decide_eq_false_1 in Hn.
Qed.

Lemma own_name_not_property n : n ∉ own_names → is_property n = false.
Proof.
  intros Hn. unfold is_property.
  destruct (assoc_get n properties) eqn:E; [|done]. exfalso. apply Hn.
  unfold properties in E. simpl in E.
  repeat case_bool_decide; simplify_eq; unfold own_names; set_solver.
Qed.

(** Construction on a fresh object, for a catalog none of whose spellings
    is one of the facade's own names: nothing is reflected, every spelling
    of every table gets an unresolved slot, and the facade is bound. *)
Lemma construction_ok create_engine e schema fuel :
  let s := kept_schema schema in
  catalog_ok (db_tables e s) = true →
  ∃ w, __init__ create_engine (attr (S fuel)) (BindEngine e) schema empty_world
       = (Ok tt, w)
       ∧ facade_ok e s w
       ∧ trace w = [] ∧ heap w = []
       ∧ dict w !! "_bind" = Some (VEngine e)
       ∧ dict w !! "_session" = Some VSession
       ∧ (∀ t n, t ∈ db_tables e s → n ∈ aliases (tname t) →
                 dict w !! n = Some (VStr "None")).
Proof.
  intros s Hcat. rewrite init_steps. fold s. unfold register_slots.
  assert (∀ k n, k ∈ map tname (db_tables e s) → n ∈ aliases k →
                 n ∉ own_names) as Hown.
  { intros k n (t & -> & Ht)%list_elem_of_fmap Hn. by eapply catalog_ok_spec. }
  destruct (register_loop (map tname (db_tables e s)) (bound_dict e s)
              (Some (MetaData e s [])) [] []) as (d' & Hloop & _ & Hnew & Hframe).
  { intros k n Hk Hn. eapply own_name_not_property, Hown; done. }
  assert (∀ n, n ∈ own_names → d' !! n = bound_dict e s !! n) as Hkept.
  { intros n Hn. apply Hframe. intros k Hk Hal. by eapply Hown. }
  eexists. split; [exact Hloop|]. cbn [dict meta heap trace].
  split; [|split; [done|split; [done|split; [|split]]]].
  - split; cbn [dict meta].
    + rewrite Hkept; [done|listed].
    + rewrite Hkept; [done|listed].
    + rewrite Hkept; [done|listed].
    + exists []. split; [done|constructor].
  - rewrite Hkept; [done|listed].
  - rewrite Hkept; [done|listed].
  - intros t n Ht Hn. eapply Hnew; [|done]. by apply list_elem_of_fmap_2.
Qed.

End Proofs.

(** ** The sample facade *)

Lemma sample_world_ok dialect :
  facade_ok (sample_engine dialect) None (sample_world dialect).
Proof.
  split; [reflexivity..|]. exists []. split; [reflexivity|constructor].
Qed.

Lemma resolved_world_ready dialect :
  insert_ready (sample_engine dialect) 0 users_class (resolved_world dialect).
Proof. split; reflexivity. Qed.

(** C1, as stated, fails: on a catalog holding [users], reading [db.users]
    and then [db.USERS] yields two different classes, and the second read
    runs the resolver again, reflecting [users] a second time. *)
Lemma aliases_resolved_separately :
  let '(h1, w1) := getattr_ short_repr 8 "users" (sample_world "mysql") in
  let '(h2, w2) := getattr_ short_repr 8 "USERS" w1 in
  h1 = Ok (VClass 0) ∧ h2 = Ok (VClass 1) ∧ h1 ≠ h2
  ∧ trace w2 = [ReflectOnly "users"; ReflectOnly "USERS"; ReflectOnly "users"].
Proof. vm_compute. repeat split; congruence. Qed.

Lemma slot_resolved_once_per_spelling_witness :
  ∃ a w', getattr_ short_repr 8 "users" (sample_world "mysql") = (Ok (VClass a), w')
          ∧ trace w' = trace (sample_world "mysql") ++ [ReflectOnly "users"]
          ∧ (∀ n, n ≠ "users" → dict w' !! n = dict (sample_world "mysql") !! n)
          ∧ (∀ fuel', getattr_ short_repr (S fuel') "users" w' = (Ok (VClass a), w'))
          ∧ (∀ n f1 v w1, is_property n = false →
               getattr_ short_repr (S f1) n w' = (Ok v, w1) →
               ∀ f2, getattr_ short_repr (S f2) n w1 = (Ok v, w1)).
Proof.
  apply (slot_resolved_once_per_spelling short_repr (sample_engine "mysql") None
           (sample_world "mysql") 6 "users" users).
  - apply sample_world_ok.
  - reflexivity.
  - reflexivity.
  - reflexivity.
  - reflexivity.
Defined.

Lemma insert_ignore_fragment_witness :
  insert (getattr_ short_repr 1) (VClass 0) (PyList [[("id", "1")]]) true None
    (resolved_world "mysql")
  = (Ok tt, executed (resolved_world "mysql")
              (Insert "users" ["IGNORE"] [[("id", "1")]]))
  ∧ insert (getattr_ short_repr 1) (VClass 0) (PyList [[("id", "1")]]) true None
      (resolved_world "sqlite")
    = (Ok tt, executed (resolved_world "sqlite")
                (Insert "users" ["OR REPLACE"] [[("id", "1")]]))
  ∧ insert (getattr_ short_repr 1) (VClass 0) (PyList [[("id", "1")]]) true None
      (resolved_world "oracle")
    = (Ok tt, executed (resolved_world "oracle")
                (Insert "users"
                   ["/*+ IGNORE_ROW_ON_DUPKEY_INDEX (users, ix_users_name) */"]
                   [[("id", "1")]])).
Proof.
  split; [|split].
  - apply (insert_ignore_fragment short_repr (sample_engine "mysql") 0 users_class
             (resolved_world "mysql") 0 (PyList [[("id", "1")]]) [[("id", "1")]] None
             (resolved_world_ready "mysql") eq_refl).
    reflexivity.
  - apply (insert_ignore_fragment short_repr (sample_engine "sqlite") 0 users_class
             (resolved_world "sqlite") 0 (PyList [[("id", "1")]]) [[("id", "1")]] None
             (resolved_world_ready "sqlite") eq_refl).
    reflexivity.
  - apply (proj1 (proj2 (proj2 (proj2
             (insert_ignore_fragment short_repr (sample_engine "oracle") 0 users_class
                (resolved_world "oracle") 0 (PyList [[("id", "1")]])
                [[("id", "1")]] None
                (resolved_world_ready "oracle") eq_refl)) eq_refl))
             (Index "ix_users_name" true)); reflexivity.
Defined.

Lemma insert_other_dialect_witness :
  insert (getattr_ short_repr 1) (VClass 0) (PyList [[("id", "1")]]) true None
    (resolved_world "postgresql")
  = (Raise (UnboundLocalError "ignore_str"), resolved_world "postgresql")
  ∧ insert (getattr_ short_repr 1) (VClass 0) (PyList [[("id", "1")]]) false None
      (resolved_world "postgresql")
    = (Raise (UnboundLocalError "ignore_str"), resolved_world "postgresql").
Proof.
  split.
  - apply (insert_other_dialect short_repr (sample_engine "postgresql") 0
             users_class (resolved_world "postgresql") 0
             (PyList [[("id", "1")]]) [[("id", "1")]] true None).
    + apply resolved_world_ready.
    + reflexivity.
    + refine (bool_decide_eq_false_1 _ _). vm_compute. reflexivity.
  - apply (insert_other_dialect short_repr (sample_engine "postgresql") 0
             users_class (resolved_world "postgresql") 0
             (PyList [[("id", "1")]]) [[("id", "1")]] false None).
    + apply resolved_world_ready.
    + reflexivity.
    + refine (bool_decide_eq_false_1 _ _). vm_compute. reflexivity.
Defined.

Lemma insert_mssql_witness :
  insert (getattr_ short_repr 1) (VClass 0) (PyList [[("id", "1")]]) true None
    (resolved_world "mssql")
  = (Raise (ValueError unsupported_ignore_message), resolved_world "mssql")
  ∧ insert (getattr_ short_repr 1) (VClass 0) (PyList [[("id", "1")]]) false None
      (resolved_world "mssql")
    = (Ok tt, executed (resolved_world "mssql")
                (Insert "users" [""] [[("id", "1")]])).
Proof.
  pose proof (insert_mssql short_repr (sample_engine "mssql") 0 users_class
                (resolved_world "mssql") 0 None (resolved_world_ready "mssql")
                eq_refl) as (_ & Hraise & Hpass).
  split.
  - apply (Hraise (PyList [[("id", "1")]]) [[("id", "1")]]). reflexivity.
  - apply (Hpass (PyList [[("id", "1")]]) [[("id", "1")]]). reflexivity.
Defined.

Lemma missing_primary_key_is_distinct_witness :
  fst (getattr_ short_repr 8 "events" (sample_world "mysql"))
  = Raise (ValueError
             "There must be a primary key in events! or <events> is not the right table name, such as ['users', 'events'].")
  ∧ fst (getattr_ short_repr 8 "orders" (sample_world "mysql"))
    = Raise (AttributeError
               "<orders> is not the right table name, such as ['users', 'events'].").
Proof.
  pose proof (missing_primary_key_is_distinct short_repr (sample_engine "mysql") None
                (sample_world "mysql") 6 "events" events
                (sample_world_ok "mysql") eq_refl eq_refl eq_refl eq_refl)
    as (_ & Hpk & _ & Hunknown & _).
  split; [exact Hpk|].
  apply (Hunknown "orders"); [reflexivity| |reflexivity].
  refine (bool_decide_eq_false_1 _ _). vm_compute. reflexivity.
Defined.

(** C6, at a failing input: after [reflect()] the handle of [users] has its
    column [id] but no accessor [ID]; the handle that lazy resolution builds
    for the same table has both, on one object. *)
Lemma reflect_handles_lack_column_aliases :
  let '(_, w1) := reflect (getattr_ short_repr 8) (sample_world "mysql") in
  let '(h, w2) := getattr_ short_repr 8 "users" w1 in
  h = Ok (VClass 0)
  ∧ fst (class_getattr 0 "id" w2) = Ok (InstrumentedAttribute 0 "id")
  ∧ fst (class_getattr 0 "ID" w2) = Raise (AttributeError "ID")
  ∧ fst (class_getattr 0 "id" (resolved_world "mysql"))
    = Ok (InstrumentedAttribute 0 "id")
  ∧ fst (class_getattr 0 "ID" (resolved_world "mysql"))
    = Ok (InstrumentedAttribute 0 "id").
Proof. vm_compute. repeat split. Qed.

(** C7, as stated, fails: [events] has no primary key, so [reflect()]
    leaves its slot unresolved; reading it afterwards runs a single-table
    reflection and raises. *)
Lemma reflect_leaves_unmapped_slot :
  let '(r, w1) := reflect (getattr_ short_repr 8) (sample_world "mysql") in
  let '(h, w2) := getattr_ short_repr 8 "events" w1 in
  r = Ok tt
  ∧ dict w1 !! "events" = Some (VStr "None")
  ∧ h = Raise (ValueError
                 "There must be a primary key in events! or <events> is not the right table name, such as ['users', 'events'].")
  ∧ trace w2 = [ReflectAll; ReflectOnly "events"].
Proof. vm_compute. repeat split. Qed.

Lemma reflect_materializes_mapped_tables_witness :
  ∃ w', reflect (getattr_ short_repr 1) (sample_world "mysql") = (Ok tt, w')
        ∧ trace w' = trace (sample_world "mysql") ++ [ReflectAll]
        ∧ ∀ name t, find_table name (db_tables (sample_engine "mysql") None) = Some t →
                    has_primary_key t = true →
                    ∀ n fuel', n ∈ aliases name →
                      ∃ a, getattr_ short_repr (S fuel') n w' = (Ok (VClass a), w').
Proof.
  apply (reflect_materializes_mapped_tables short_repr (sample_engine "mysql") None
           (sample_world "mysql") 0).
  - apply sample_world_ok.
  - reflexivity.
Defined.

(** C8, as stated, fails: the lower-case string ['none'] is kept as the
    name of a schema; the facade then lists that schema's tables, and
    [db.users], which resolves without a schema, is an unknown name. *)
Lemma lowercase_none_is_a_schema :
  dict (sample_bound "mysql" (Some "none")) !! "_schema" = Some (VStr "none")
  ∧ dict (sample_bound "mysql" None) !! "_schema" = Some VNone
  ∧ dict (sample_bound "mysql" (Some "none")) !! "tables" = Some (VNames [])
  ∧ fst (getattr_ short_repr 8 "users" (sample_bound "mysql" (Some "none")))
    = Raise (AttributeError "<users> is not the right table name, such as [].")
  ∧ fst (getattr_ short_repr 8 "users" (sample_bound "mysql" None))
    = Ok (VClass 0).
Proof. vm_compute. repeat split. Qed.

Lemma unbound_read_hits_recursion_limit_witness :
  __init__ sample_create_engine (getattr_ short_repr 1000) BindNone None empty_world
  = (Ok tt, empty_world)
  ∧ getattr_ short_repr 1000 "users" empty_world = (Raise RecursionError, empty_world).
Proof.
  apply (unbound_read_hits_recursion_limit short_repr sample_create_engine None
           1000 "users").
  refine (bool_decide_eq_false_1 _ _). vm_compute. reflexivity.
Defined.

(** C10, as stated, fails: on mssql with the default [ignore=True] the empty
    list passes validation, yet the call raises and the session receives no
    statement. *)
Lemma empty_list_on_mssql_is_not_submitted :
  validate (PyList []) (resolved_world "mssql") = (Ok [], resolved_world "mssql")
  ∧ insert (getattr_ short_repr 8) (VClass 0) (PyList []) true None
      (resolved_world "mssql")
    = (Raise (ValueError unsupported_ignore_message), resolved_world "mssql")
  ∧ trace (resolved_world "mssql") = [ReflectOnly "users"].
Proof. vm_compute. repeat split. Qed.

Lemma insert_empty_list_witness :
  validate (PyList []) (resolved_world "mysql") = (Ok [], resolved_world "mysql")
  ∧ insert (getattr_ short_repr 1) (VClass 0) (DataFrame ["id"] []) true None
      (resolved_world "mysql")
    = (Raise (ValueError empty_dataframe_message), resolved_world "mysql")
  ∧ ∃ p, insert (getattr_ short_repr 1) (VClass 0) (PyList []) true None
           (resolved_world "mysql")
         = (Ok tt, executed (resolved_world "mysql") (Insert "users" [p] [])).
Proof.
  pose proof (insert_empty_list short_repr (sample_engine "mysql") 0 users_class
                (resolved_world "mysql") 0 true None (resolved_world_ready "mysql"))
    as (Hv & Hdf & Hlist).
  split; [exact Hv|]. split.
  - apply (Hdf ["id"] []). reflexivity.
  - apply Hlist. left. reflexivity.
Defined.

(** ** Further properties of the facade *)

Section Coverage.

Variable reprlib_repr : value → string.

Local Abbreviation attr := (getattr_ reprlib_repr).

(** One branch of the fallback in [__getattribute__]: resolve under the
    spelling [x], store under the spelling [n] that was read. *)
Local Abbreviation attempt fuel n x :=
  (and_then (call_reflect_table reprlib_repr (attr fuel) x) (λ t, setattr n t)).

(** *** The fallback over the spellings *)

Lemma getattribute_unresolved self_ n w :
  dict w !! n = Some (VStr "None") →
  is_property n = false →
  __getattribute__ reprlib_repr self_ n w
  = and_then
      (try_except
         (and_then (call_reflect_table reprlib_repr self_ n) (λ t, setattr n t))
         is_InvalidRequestError
         (try_except
            (and_then (call_reflect_table reprlib_repr self_ (lower n))
                      (λ t, setattr n t))
            is_InvalidRequestError
            (and_then (call_reflect_table reprlib_repr self_ (upper n))
                      (λ t, setattr n t))))
      (λ _, object_getattribute self_ n) w.
Proof.
  intros Hd Hp. unfold __getattribute__.
  erewrite and_then_ok; [|by apply object_getattribute_dict].
  cbn [is_placeholder]. by rewrite bool_decide_eq_true_2.
Qed.

Lemma attempt_missing e s d held h tr fuel n x :
  facade_ok e s (World d (Some (MetaData e s held)) h tr) →
  find_table x (db_tables e s) = None →
  attempt (S fuel) n x (World d (Some (MetaData e s held)) h tr)
  = (Raise InvalidRequestError,
     World d (Some (MetaData e s held)) h (tr ++ [ReflectOnly x])).
Proof.
  intros Hok Hf. erewrite and_then_raise; [done|].
  erewrite call_reflect_table_eq; [|done]. by apply reflect_table_missing.
Qed.

Lemma attempt_found e s d held h tr fuel n x t :
  facade_ok e s (World d (Some (MetaData e s held)) h tr) →
  held_ok (db_tables e s) held →
  find_table x (db_tables e s) = Some t →
  has_primary_key t = true →
  is_property n = false →
  ∃ a h', attempt (S fuel) n x (World d (Some (MetaData e s held)) h tr)
          = (Ok tt, World (<[n := VClass a]> d)
                          (Some (MetaData e s (held_after x t held))) h'
                          (tr ++ [ReflectOnly x]))
          ∧ (length h ≤ a < length h')%nat.
Proof.
  intros Hok Hheld Hf Hpk Hp.
  destruct (reflect_table_found reprlib_repr e s d held h tr fuel x t
              Hok Hheld Hf Hpk) as (a & h' & Hr & Hrange).
  exists a, h'. split; [|done].
  erewrite and_then_ok; [|by erewrite call_reflect_table_eq].
  unfold setattr. by rewrite Hp.
Qed.

Lemma attempt_unmapped e s d held h tr fuel n x t :
  facade_ok e s (World d (Some (MetaData e s held)) h tr) →
  held_ok (db_tables e s) held →
  find_table x (db_tables e s) = Some t →
  has_primary_key t = false →
  ∃ h', attempt (S fuel) n x (World d (Some (MetaData e s held)) h tr)
        = (Raise (ValueError (missing_primary_key_message x
                    (reprlib_repr (VNames (map tname (db_tables e s)))))),
           World d (Some (MetaData e s (held_after x t held))) h'
                 (tr ++ [ReflectOnly x])).
Proof.
  intros Hok Hheld Hf Hpk.
  destruct (reflect_table_unmapped reprlib_repr e s d held h tr fuel x t
              Hok Hheld Hf Hpk) as (h' & Hr).
  exists h'. erewrite and_then_raise; [done|].
  by erewrite call_reflect_table_eq.
Qed.

(** X1: The spellings are tried in the order read, lower, upper: when the
    spelling read is not a table, the handle of the lower-case spelling is
    taken, and only failing that the handle of the upper-case one; it is
    stored under the spelling that was read. *)
Theorem fallback_lower_then_upper e s w fuel n :
  facade_ok e s w →
  dict w !! n = Some (VStr "None") →
  is_property n = false →
  find_table n (db_tables e s) = None →
  (∀ t, find_table (lower n) (db_tables e s) = Some t →
        has_primary_key t = true →
        ∃ a w', attr (S (S fuel)) n w = (Ok (VClass a), w')
                ∧ dict w' = <[n := VClass a]> (dict w)
                ∧ trace w' = trace w ++ [ReflectOnly n; ReflectOnly (lower n)])
  ∧ (∀ t, find_table (lower n) (db_tables e s) = None →
          find_table (upper n) (db_tables e s) = Some t →
          has_primary_key t = true →
          ∃ a w', attr (S (S fuel)) n w = (Ok (VClass a), w')
                  ∧ dict w' = <[n := VClass a]> (dict w)
                  ∧ trace w' = trace w ++ [ReflectOnly n; ReflectOnly (lower n);
                                           ReflectOnly (upper n)]).
Proof.
  intros Hok Hd Hp Hn. destruct w as [d m h tr].
  pose proof Hok as [_ _ _ (held & Hm & Hheld)]. simpl in Hm, Hd. subst m.
  assert (facade_ok e s (World d (Some (MetaData e s held)) h
                           (tr ++ [ReflectOnly n]))) as Hok1
    by by eapply facade_ok_frame.
  split.
  - intros t Hl Hpk.
    destruct (attempt_found e s d held h (tr ++ [ReflectOnly n]) fuel n (lower n) t
                Hok1 Hheld Hl Hpk Hp) as (a & h' & Ha & _).
    exists a, (World (<[n := VClass a]> d)
                 (Some (MetaData e s (held_after (lower n) t held))) h'
                 ((tr ++ [ReflectOnly n]) ++ [ReflectOnly (lower n)])).
    split; [|split]; cycle 1.
    + reflexivity.
    + cbn [trace]. by rewrite <- app_assoc.
    + rewrite getattr_S. erewrite try_except_ok; [reflexivity|].
      rewrite getattribute_unresolved by done.
      erewrite and_then_ok.
      * apply object_getattribute_dict; [done|]. apply lookup_insert_eq.
      * erewrite try_except_caught;
          [|by apply attempt_missing|reflexivity].
        by erewrite try_except_ok.
  - intros t Hl Hu Hpk.
    assert (facade_ok e s (World d (Some (MetaData e s held)) h
                             ((tr ++ [ReflectOnly n]) ++ [ReflectOnly (lower n)])))
      as Hok2 by by eapply facade_ok_frame.
    destruct (attempt_found e s d held h
                ((tr ++ [ReflectOnly n]) ++ [ReflectOnly (lower n)]) fuel n
                (upper n) t Hok2 Hheld Hu Hpk Hp) as (a & h' & Ha & _).
    exists a, (World (<[n := VClass a]> d)
                 (Some (MetaData e s (held_after (upper n) t held))) h'
                 (((tr ++ [ReflectOnly n]) ++ [ReflectOnly (lower n)])
                  ++ [ReflectOnly (upper n)])).
    split; [|split]; cycle 1.
    + reflexivity.
    + cbn [trace]. by rewrite <- !app_assoc.
    + rewrite getattr_S. erewrite try_except_ok; [reflexivity|].
      rewrite getattribute_unresolved by done.
      erewrite and_then_ok.
      * apply object_getattribute_dict; [done|]. apply lookup_insert_eq.
      * erewrite try_except_caught;
          [|by apply attempt_missing|reflexivity].
        erewrite try_except_caught;
          [|by apply attempt_missing|reflexivity].
        exact Ha.
Qed.

(** X2: When none of the three spellings is a table of the database, the read
    raises the [InvalidRequestError] of the last attempt, after three
    single-table reflections; no class is built and the slot stays
    unresolved. *)
Theorem fallback_exhausted e s w fuel n :
  facade_ok e s w →
  dict w !! n = Some (VStr "None") →
  is_property n = false →
  find_table n (db_tables e s) = None →
  find_table (lower n) (db_tables e s) = None →
  find_table (upper n) (db_tables e s) = None →
  ∃ w', attr (S (S fuel)) n w = (Raise InvalidRequestError, w')
        ∧ dict w' = dict w ∧ heap w' = heap w
        ∧ trace w' = trace w ++ [ReflectOnly n; ReflectOnly (lower n);
                                 ReflectOnly (upper n)].
Proof.
  intros Hok Hd Hp Hn Hl Hu. destruct w as [d m h tr].
  pose proof Hok as [_ _ _ (held & Hm & Hheld)]. simpl in Hm, Hd. subst m.
  assert (facade_ok e s (World d (Some (MetaData e s held)) h
                           (tr ++ [ReflectOnly n]))) as Hok1
    by by eapply facade_ok_frame.
  assert (facade_ok e s (World d (Some (MetaData e s held)) h
                           ((tr ++ [ReflectOnly n]) ++ [ReflectOnly (lower n)])))
    as Hok2 by by eapply facade_ok_frame.
  exists (World d (Some (MetaData e s held)) h
            (((tr ++ [ReflectOnly n]) ++ [ReflectOnly (lower n)])
             ++ [ReflectOnly (upper n)])).
  split; [|split; [|split]]; cycle 1.
  - reflexivity.
  - reflexivity.
  - cbn [trace]. by rewrite <- !app_assoc.
  - rewrite getattr_S. erewrite try_except_passed; [reflexivity| |reflexivity].
    rewrite getattribute_unresolved by done.
    erewrite and_then_raise; [reflexivity|].
    erewrite try_except_caught; [|by apply attempt_missing|reflexivity].
    erewrite try_except_caught; [|by apply attempt_missing|reflexivity].
    by apply attempt_missing.
Qed.

(** *** A failed resolution *)

Lemma read_unmapped e s d held h tr fuel name t :
  facade_ok e s (World d (Some (MetaData e s held)) h tr) →
  held_ok (db_tables e s) held →
  find_table name (db_tables e s) = Some t →
  has_primary_key t = false →
  d !! name = Some (VStr "None") →
  is_property name = false →
  ∃ h', attr (S (S fuel)) name (World d (Some (MetaData e s held)) h tr)
        = (Raise (ValueError (missing_primary_key_message name
                    (reprlib_repr (VNames (map tname (db_tables e s)))))),
           World d (Some (MetaData e s (held_after name t held))) h'
                 (tr ++ [ReflectOnly name])).
Proof.
  intros Hok Hheld Hf Hpk Hd Hp.
  destruct (attempt_unmapped e s d held h tr fuel name name t Hok Hheld Hf Hpk)
    as (h' & Ha).
  exists h'. rewrite getattr_S.
  erewrite try_except_passed; [reflexivity| |reflexivity].
  rewrite getattribute_unresolved by done.
  erewrite and_then_raise; [reflexivity|].
  by erewrite try_except_passed.
Qed.

(** X3: A failure is not remembered: after a read of a table without a primary
    key has raised, its slot is still unresolved, and reading it again
    reflects the table again and raises the same error. *)
Theorem failed_resolution_is_retried e s w fuel name t :
  facade_ok e s w →
  find_table name (db_tables e s) = Some t →
  has_primary_key t = false →
  dict w !! name = Some (VStr "None") →
  is_property name = false →
  let failure := ValueError (missing_primary_key_message name
                   (reprlib_repr (VNames (map tname (db_tables e s))))) in
  ∃ w1 w2, attr (S (S fuel)) name w = (Raise failure, w1)
           ∧ dict w1 !! name = Some (VStr "None")
           ∧ attr (S (S fuel)) name w1 = (Raise failure, w2)
           ∧ dict w2 = dict w
           ∧ trace w2 = trace w ++ [ReflectOnly name; ReflectOnly name].
Proof.
  intros Hok Hf Hpk Hd Hp failure. subst failure. destruct w as [d m h tr].
  pose proof Hok as [_ _ _ (held & Hm & Hheld)]. simpl in Hm, Hd. subst m.
  destruct (read_unmapped e s d held h tr fuel name t Hok Hheld Hf Hpk Hd Hp)
    as (h1 & Hr1).
  assert (held_ok (db_tables e s) (held_after name t held)) as Hheld1
    by by apply held_after_ok.
  assert (facade_ok e s (World d (Some (MetaData e s (held_after name t held))) h1
                           (tr ++ [ReflectOnly name]))) as Hok1
    by by eapply facade_ok_frame.
  destruct (read_unmapped e s d (held_after name t held) h1
              (tr ++ [ReflectOnly name]) fuel name t Hok1 Hheld1 Hf Hpk Hd Hp)
    as (h2 & Hr2).
  eexists _, _. split; [exact Hr1|]. split; [exact Hd|].
  split; [exact Hr2|]. split; [reflexivity|].
  cbn [trace]. by rewrite <- app_assoc.
Qed.

(** *** Construction *)

Lemma register_slot_refused k d m h tr :
  forallb (λ n, negb (is_property n)) (aliases k) = false →
  ∃ d', register_slot k (World d m h tr)
        = (Raise (AttributeError "can't set attribute"), World d' m h tr).
Proof.
  unfold aliases, register_slot, setattr. cbn [forallb].
  destruct (is_property k); [by eexists|].
  destruct (is_property (lower k)); [by eexists|].
  destruct (is_property (upper k)); [by eexists|]. done.
Qed.

Lemma register_loop_refused l : ∀ d m h tr,
  forallb (λ k, forallb (λ n, negb (is_property n)) (aliases k)) l = false →
  ∃ d', for_each l register_slot (World d m h tr)
        = (Raise (AttributeError "can't set attribute"), World d' m h tr).
Proof.
  induction l as [|k l IH]; intros d m h tr Hl; [done|].
  cbn [forallb] in Hl. cbn [for_each].
  destruct (forallb (λ n, negb (is_property n)) (aliases k)) eqn:Hk.
  - destruct (IH (<[upper k := VStr "None"]> (<[lower k := VStr "None"]>
                    (<[k := VStr "None"]> d))) m h tr Hl) as (d' & Hloop).
    exists d'. erewrite and_then_ok; [exact Hloop|].
    apply register_slot_spec. intros n Hn.
    rewrite forallb_forall in Hk. apply list_elem_of_In, Hk in Hn.
    by apply negb_true_iff in Hn.
  - destruct (register_slot_refused k d m h tr Hk) as (d' & Hr).
    exists d'. by erewrite and_then_raise.
Qed.

(** X4: A catalog with a table one of whose spellings is [bind] or [schema]
    cannot be bound: the constructor raises [AttributeError] when it
    registers that slot, the property having no setter.  Nothing has been
    reflected by then. *)
Theorem construction_refuses_property_names create_engine e schema fuel :
  well_named (db_tables e (kept_schema schema)) = false →
  ∃ msg w, __init__ create_engine (attr (S fuel)) (BindEngine e) schema empty_world
           = (Raise (AttributeError msg), w)
           ∧ trace w = [] ∧ heap w = [].
Proof.
  intros Hwn. rewrite init_steps. unfold register_slots.
  destruct (register_loop_refused (map tname (db_tables e (kept_schema schema)))
              (bound_dict e (kept_schema schema))
              (Some (MetaData e (kept_schema schema) [])) [] []) as (d' & Hloop).
  { unfold well_named in Hwn. rewrite <- Hwn.
    generalize (db_tables e (kept_schema schema)).
    induction l as [|t l IH]; [done|]. cbn [map forallb]. by rewrite IH. }
  eexists _, _. split; [exact Hloop|]. done.
Qed.

Lemma construction_dict create_engine e schema fuel :
  let s := kept_schema schema in
  catalog_ok (db_tables e s) = true →
  ∃ d, __init__ create_engine (attr (S fuel)) (BindEngine e) schema empty_world
       = (Ok tt, World d (Some (MetaData e s [])) [] [])
       ∧ (∀ n, n ∈ own_names → d !! n = bound_dict e s !! n)
       ∧ (∀ t n, t ∈ db_tables e s → n ∈ aliases (tname t) →
                 d !! n = Some (VStr "None")).
Proof.
  intros s Hcat. rewrite init_steps. fold s. unfold register_slots.
  assert (∀ k n, k ∈ map tname (db_tables e s) → n ∈ aliases k →
                 n ∉ own_names) as Hown.
  { intros k n (t & -> & Ht)%list_elem_of_fmap Hn. by eapply catalog_ok_spec. }
  destruct (register_loop (map tname (db_tables e s)) (bound_dict e s)
              (Some (MetaData e s [])) [] []) as (d' & Hloop & _ & Hnew & Hframe).
  { intros k n Hk Hn. eapply own_name_not_property, Hown; done. }
  exists d'. split; [exact Hloop|]. split.
  - intros n Hn. apply Hframe. intros k Hk Hal. by eapply Hown.
  - intros t n Ht Hn. eapply Hnew; [|done]. by apply list_elem_of_fmap_2.
Qed.

(** X5: Construction, then reading back: on a catalog none of whose spellings
    is one of the facade's own names, the constructor reflects nothing and
    builds no class; afterwards [db.bind] is the engine it was given,
    [db.schema] the schema it kept, [db.tables] the names the engine lists,
    in its order, and every spelling of every table is an unresolved slot. *)
Theorem construction_round_trip create_engine e schema fuel :
  let s := kept_schema schema in
  catalog_ok (db_tables e s) = true →
  ∃ w, __init__ create_engine (attr (S fuel)) (BindEngine e) schema empty_world
       = (Ok tt, w)
       ∧ trace w = [] ∧ heap w = []
       ∧ attr (S (S fuel)) "bind" w = (Ok (VEngine e), w)
       ∧ attr (S (S fuel)) "schema" w
         = (Ok (match s with Some x => VStr x | None => VNone end), w)
       ∧ attr (S fuel) "tables" w = (Ok (VNames (map tname (db_tables e s))), w)
       ∧ (∀ t n, t ∈ db_tables e s → n ∈ aliases (tname t) →
                 dict w !! n = Some (VStr "None")).
Proof.
  intros s Hcat.
  destruct (construction_dict create_engine e schema fuel Hcat)
    as (d & Hinit & Hown & Hslots). fold s in Hinit, Hown, Hslots.
  exists (World d (Some (MetaData e s [])) [] []).
  split; [exact Hinit|]. split; [done|]. split; [done|].
  assert (d !! "_bind" = Some (VEngine e)) as Hb.
  { rewrite Hown; [done|]. refine (bool_decide_eq_true_1 _ _). by vm_compute. }
  assert (d !! "_schema" = Some (match s with Some x => VStr x | None => VNone end))
    as Hs.
  { rewrite Hown; [done|]. refine (bool_decide_eq_true_1 _ _). by vm_compute. }
  assert (d !! "tables" = Some (VNames (map tname (db_tables e s)))) as Ht.
  { rewrite Hown; [done|]. refine (bool_decide_eq_true_1 _ _). by vm_compute. }
  assert (is_placeholder (match s with Some x => VStr x | None => VNone end) = false)
    as Hkept.
  { subst s. unfold kept_schema. case_bool_decide as Hn; [done|].
    destruct schema as [x|]; [|done]. cbn [is_placeholder].
    apply bool_decide_eq_false_2. congruence. }
  split; [|split; [|split; [|done]]].
  - rewrite getattr_S. erewrite try_except_ok; [reflexivity|].
    unfold __getattribute__, object_getattribute. cbn [assoc_get properties].
    rewrite bool_decide_eq_true_2 by done.
    erewrite and_then_ok; [|by apply getattr_hit].
    cbn [is_placeholder]. erewrite and_then_ok; [|reflexivity].
    by apply getattr_hit.
  - rewrite getattr_S. erewrite try_except_ok; [reflexivity|].
    unfold __getattribute__, object_getattribute. cbn [assoc_get properties].
    rewrite bool_decide_eq_false_2 by done.
    rewrite bool_decide_eq_true_2 by done.
    erewrite and_then_ok; [|by apply getattr_hit].
    rewrite Hkept. erewrite and_then_ok; [|reflexivity].
    by apply getattr_hit.
  - by apply getattr_hit.
Qed.

(** *** What [insert] does and does not do *)

Lemma oracle_ignore_str_pure e a c w ignore index :
  insert_ready e a c w →
  ∃ r, oracle_ignore_str (VClass a) ignore index w = (r, w).
Proof.
  intros Hready. pose proof (read_table e a c w Hready) as Ht.
  unfold oracle_ignore_str.
  match goal with
  | |- ∃ r, and_then ?m ?k w = _ =>
      assert (∃ r, m w = (r, w)) as [[i|x] H1];
        [|assert (∃ r, k i w = (r, w)) as [r H2]|]
  end.
  - destruct (ignore && bool_decide (index = None)); [|by eexists].
    erewrite and_then_ok; [|done].
    destruct (first_unique _); [by eexists|].
    erewrite and_then_ok; [|done].
    destruct (constraints (cls_table c)); by eexists.
  - cbv beta. destruct ignore; [|by eexists].
    erewrite and_then_ok; [|done]. by eexists.
  - exists r. by erewrite and_then_ok.
  - eexists. by erewrite and_then_raise.
Qed.

Lemma ignore_str_of_pure e a c w fuel ignore index :
  insert_ready e a c w →
  ∃ r, ignore_str_of (attr (S fuel)) (VClass a) ignore index w = (r, w).
Proof.
  intros Hready.
  destruct (decide (dialect_name e = "mysql")) as [Hd|H1].
  { eexists. by eapply ignore_str_mysql. }
  destruct (decide (dialect_name e = "sqlite")) as [Hd|H2].
  { eexists. by eapply ignore_str_sqlite. }
  destruct (decide (dialect_name e = "oracle")) as [Hd|H3].
  { destruct (oracle_ignore_str_pure e a c w ignore index Hready) as [[p|x] Hr].
    - eexists. erewrite ignore_str_oracle; [|done|done]. by erewrite and_then_ok.
    - eexists. erewrite ignore_str_oracle; [|done|done]. by erewrite and_then_raise. }
  destruct (decide (dialect_name e = "mssql")) as [Hd|H4].
  { erewrite ignore_str_mssql; [|done|done]. destruct ignore; by eexists. }
  eexists. by eapply ignore_str_other.
Qed.

(** X6: On a facade with its engine and session, whatever the arguments,
    [insert] either raises and leaves the state as it was, or hands the
    session exactly one statement: on the table of the handle, with one
    prefix, carrying the validated rows in their order.  It reflects
    nothing and touches no slot. *)
Theorem insert_outcome e a c w fuel obj ignore index :
  insert_ready e a c w →
  (∃ x, insert (attr (S fuel)) (VClass a) obj ignore index w = (Raise x, w))
  ∨ (∃ p rows, validate obj w = (Ok rows, w)
               ∧ insert (attr (S fuel)) (VClass a) obj ignore index w
                 = (Ok tt, executed w (Insert (tname (cls_table c)) [p] rows))).
Proof.
  intros Hready. destruct (validate_pure obj w) as [[rows|x] Hv].
  - destruct (ignore_str_of_pure e a c w fuel ignore index Hready)
      as [[[p|]|x] Hi].
    + right. exists p, rows. split; [done|]. by eapply insert_executes.
    + left. exists (UnboundLocalError "ignore_str"). unfold insert.
      erewrite and_then_ok; [|done]. erewrite and_then_ok; [|done].
      pose proof Hready as [_ Hs _].
      erewrite and_then_ok; [|by apply getattr_hit].
      erewrite and_then_ok; [|done].
      by erewrite and_then_ok; [|by eapply read_table].
    + left. exists x. by eapply insert_raises.
  - left. exists x. unfold insert. by erewrite and_then_raise.
Qed.

(** X7: With [ignore=False] the four dialects the code names behave alike: no
    fragment, whatever the index argument; the statement is executed with
    the empty prefix. *)
Theorem insert_without_ignore e a c w fuel obj rows index :
  insert_ready e a c w →
  validate obj w = (Ok rows, w) →
  dialect_name e ∈ ["mysql"; "sqlite"; "oracle"; "mssql"] →
  insert (attr (S fuel)) (VClass a) obj false index w
  = (Ok tt, executed w (Insert (tname (cls_table c)) [""] rows)).
Proof.
  intros Hready Hv Hd. eapply insert_executes; [done|done|].
  repeat (apply elem_of_cons in Hd as [Hd|Hd]).
  - by erewrite ignore_str_mysql.
  - by erewrite ignore_str_sqlite.
  - erewrite ignore_str_oracle; [|done|done].
    by erewrite and_then_ok; [|by eapply oracle_no_ignore].
  - by erewrite ignore_str_mssql.
  - by apply elem_of_nil in Hd.
Qed.

(** X8: The two input formats: anything that is neither a DataFrame nor a list
    is refused before any attribute of the facade is read, so in every
    state and with the state unchanged; a DataFrame that is not empty is
    inserted exactly as the list of its records is. *)
Theorem insert_input_formats self_ table ignore index w :
  (∀ repr, insert self_ table (PyOther repr) ignore index w
           = (Raise (ValueError (not_a_list_message repr)), w))
  ∧ (∀ labels cells, empty labels cells = false →
       insert self_ table (DataFrame labels cells) ignore index w
       = insert self_ table (PyList (to_dict_records labels cells)) ignore index w).
Proof.
  split; [done|].
  intros labels cells He. unfold insert, validate. by rewrite He.
Qed.

(** *** The column accessors of a lazily resolved handle *)

Lemma assoc_get_set {A} n k (x : A) l :
  assoc_get n (assoc_set k x l) = if bool_decide (k = n) then Some x else assoc_get n l.
Proof.
  induction l as [|[k0 v0] l IH]; simpl.
  - by repeat case_bool_decide.
  - repeat (case_bool_decide; simpl); simplify_eq; try done.
    all: rewrite IH; by repeat case_bool_decide.
Qed.

Lemma assoc_get_app_r {A} n (l1 l2 : list (string * A)) :
  n ∉ map fst l1 → assoc_get n (l1 ++ l2) = assoc_get n l2.
Proof.
  induction l1 as [|[k0 v0] l1 IH]; simpl; [done|].
  intros Hn. case_bool_decide; simplify_eq.
  - exfalso. apply Hn. left.
  - apply IH. intros Hin. apply Hn. by right.
Qed.

Lemma assoc_get_map_self {A} (f : string → A) n l :
  n ∈ l → assoc_get n (map (λ c, (c, f c)) l) = Some (f n).
Proof.
  induction l as [|k l IH]; simpl; [by intros ?%elem_of_nil|].
  intros Hn. case_bool_decide; simplify_eq; [done|].
  apply IH. by apply elem_of_cons in Hn as [?|?].
Qed.

Lemma spellings_apart_spec names k k' n :
  spellings_apart names = true →
  k ∈ names → k' ∈ names → n ∈ aliases k → n ∈ aliases k' → k = k'.
Proof.
  unfold spellings_apart. rewrite forallb_forall. intros Hall Hk Hk' Hn Hn'.
  apply list_elem_of_In, Hall in Hk. rewrite forallb_forall in Hk.
  apply list_elem_of_In, Hk, orb_true_iff in Hk' as [Heq|Hdis].
  - by apply bool_decide_eq_true_1 in Heq.
  - rewrite forallb_forall in Hdis.
    apply list_elem_of_In, Hdis, negb_true_iff, bool_decide_eq_false_1 in Hn.
    done.
Qed.

Lemma columns_apart_spec cols :
  columns_apart cols = true →
  (∀ k k' n, k ∈ cols → k' ∈ cols → n ∈ aliases k → n ∈ aliases k' → k = k')
  ∧ (∀ k n, k ∈ cols → n ∈ aliases k → n ∉ plain_names).
Proof.
  unfold columns_apart. intros [Ha Hp]%andb_true_iff. split.
  - intros k k' n. by apply spellings_apart_spec.
  - intros k n Hk Hn. rewrite forallb_forall in Hp.
    apply list_elem_of_In, Hp in Hk. rewrite forallb_forall in Hk.
    by apply list_elem_of_In, Hk, negb_true_iff, bool_decide_eq_false_1 in Hn.
Qed.

Section Columns.

Context (a : nat) (cols : list string).
Hypothesis Happart : columns_apart cols = true.

Lemma alias_step D k :
  columns_kept a cols D → k ∈ cols →
  let x := InstrumentedAttribute a k in
  let D' := assoc_set (lower k) x (assoc_set (upper k) x D) in
  columns_kept a cols D'
  ∧ (∀ k0, k0 ∈ cols → column_aliased a k0 D → column_aliased a k0 D')
  ∧ column_aliased a k D'.
Proof.
  destruct (columns_apart_spec cols Happart) as [Hapart Hplain].
  intros [Hcols Hpl] Hk x D'.
  assert (k ∈ aliases k) as Hself by left.
  assert (lower k ∈ aliases k) as Hlo by (right; left).
  assert (upper k ∈ aliases k) as Hup by (do 2 right; left).
  assert (∀ n, assoc_get n D'
               = if bool_decide (lower k = n) then Some x
                 else if bool_decide (upper k = n) then Some x
                      else assoc_get n D) as HD'.
  { intros n. unfold D'. by rewrite !assoc_get_set. }
  assert (∀ k0 n, k0 ∈ cols → n ∈ aliases k0 →
                  assoc_get n D = Some (InstrumentedAttribute a k0) →
                  assoc_get n D' = Some (InstrumentedAttribute a k0)) as Hkeep.
  { intros k0 n Hk0 Hn HD. rewrite HD'. repeat case_bool_decide; subst; [| |done].
    - by assert (k = k0) as -> by by apply (Hapart k k0 (lower k)).
    - by assert (k = k0) as -> by by apply (Hapart k k0 (upper k)). }
  split; [split|split].
  - intros k0 Hk0. apply Hkeep; [done|left|by apply Hcols].
  - intros p Hp. rewrite HD'. repeat case_bool_decide; subst.
    + by destruct (Hplain k (lower k)).
    + by destruct (Hplain k (upper k)).
    + by apply Hpl.
  - intros k0 Hk0 Hq n Hn. by apply Hkeep, Hq.
  - intros n Hn. rewrite HD'. repeat case_bool_decide; [done|done|].
    unfold aliases in Hn. apply elem_of_cons in Hn as [->|Hn]; [by apply Hcols|].
    apply elem_of_cons in Hn as [->|Hn]; [done|].
    apply elem_of_cons in Hn as [->|Hn]; [done|]. by apply elem_of_nil in Hn.
Qed.

Lemma alias_loop_apart ks : ∀ d m h tr c,
  h !! a = Some c →
  columns_kept a cols (cls_dict c) →
  (∀ k, k ∈ ks → k ∈ plain_names ∨ k ∈ cols) →
  ∃ h' c', for_each ks (alias_column a) (World d m h tr) = (Ok tt, World d m h' tr)
           ∧ h' !! a = Some c'
           ∧ columns_kept a cols (cls_dict c')
           ∧ (∀ k, k ∈ cols → column_aliased a k (cls_dict c) →
                   column_aliased a k (cls_dict c'))
           ∧ (∀ k, k ∈ ks → k ∈ cols → column_aliased a k (cls_dict c')).
Proof.
  destruct (columns_apart_spec cols Happart) as [Hapart Hplain].
  induction ks as [|k ks IH]; intros d m h tr c Ha Hinv Hks.
  - exists h, c. split; [done|]. split; [done|]. split; [done|].
    split; [done|]. by intros ? ?%elem_of_nil.
  - assert (∀ k', k' ∈ ks → k' ∈ plain_names ∨ k' ∈ cols) as Hks'.
    { intros k' Hk'. apply Hks. by right. }
    cbn [for_each]. destruct (decide (k ∈ cols)) as [Hk|Hk].
    + destruct (alias_step (cls_dict c) k Hinv Hk) as (Hinv' & Hpres & Hq).
      set (x := InstrumentedAttribute a k) in *.
      set (c1 := {| cls_table := cls_table c;
                    cls_dict := assoc_set (lower k) x
                                  (assoc_set (upper k) x (cls_dict c)) |}).
      destruct (IH d m (alter (λ _, c1) a h) tr c1) as (h' & c' & Hloop & Hc' & Hinv2 & Hpres2 & Hnew);
        [by rewrite list_lookup_alter_eq, Ha|done|done|].
      exists h', c'. split; [|split; [done|split; [done|split]]].
      * erewrite and_then_ok; [exact Hloop|].
        unfold alias_column, class_getattr, class_setattr, and_then, get, ret,
          set_heap, modify. cbn [heap dict meta trace].
        rewrite Ha, (proj1 Hinv k Hk). cbn [is_instrumented heap dict meta trace].
        do 2 f_equal. apply list_eq. intros i.
        destruct (decide (i = a)) as [->|Hi].
        -- by rewrite !list_lookup_alter_eq, Ha.
        -- by rewrite !list_lookup_alter_ne.
      * intros k0 Hk0 Hq0. by apply Hpres2, Hpres.
      * intros k0 [->|Hin]%elem_of_cons Hk0; [by apply Hpres2|by apply Hnew].
    + assert (assoc_get k (cls_dict c) = Some Plain) as Hp.
      { destruct (Hks k) as [?|?]; [left| |done]. by apply Hinv. }
      destruct (IH d m h tr c Ha Hinv Hks') as (h' & c' & Hloop & Hc' & Hinv2 & Hpres2 & Hnew).
      exists h', c'. split; [|split; [done|split; [done|split; [done|]]]].
      * erewrite and_then_ok; [exact Hloop|].
        unfold alias_column, class_getattr, and_then, get, ret. cbn [heap].
        by rewrite Ha, Hp.
      * intros k0 [->|Hin]%elem_of_cons Hk0; [done|by apply Hnew].
Qed.

End Columns.

Lemma mapped_class_kept a t :
  columns_apart (columns t) = true →
  columns_kept a (columns t) (cls_dict (mapped_class a t))
  ∧ (∀ k, k ∈ map fst (cls_dict (mapped_class a t)) →
          k ∈ plain_names ∨ k ∈ columns t).
Proof.
  intros Happ. destruct (columns_apart_spec _ Happ) as [_ Hplain].
  unfold mapped_class. cbn [cls_dict]. split; [split|].
  - intros k Hk. rewrite assoc_get_app_r.
    + by apply (assoc_get_map_self (InstrumentedAttribute a)).
    + apply (Hplain k k Hk). left.
  - intros p Hp. unfold plain_names in Hp.
    repeat (apply elem_of_cons in Hp as [->|Hp]; [reflexivity|]).
    by apply elem_of_nil in Hp.
  - intros k Hk. rewrite map_app in Hk. apply elem_of_app in Hk as [Hk|Hk].
    + by left.
    + right. rewrite map_map in Hk. cbn in Hk. by rewrite map_id in Hk.
Qed.

Lemma reflect_table_found_aliased e s d held h tr fuel name t :
  facade_ok e s (World d (Some (MetaData e s held)) h tr) →
  held_ok (db_tables e s) held →
  find_table name (db_tables e s) = Some t →
  has_primary_key t = true →
  columns_apart (columns t) = true →
  ∃ a h' c', _reflect_table reprlib_repr (attr (S fuel)) name
               (World d (Some (MetaData e s held)) h tr)
             = (Ok (VClass a),
                World d (Some (MetaData e s (held_after name t held))) h'
                      (tr ++ [ReflectOnly name]))
             ∧ h' !! a = Some c'
             ∧ (∀ C, C ∈ columns t → column_aliased a C (cls_dict c')).
Proof.
  intros Hok Hheld Hf Hpk Happ. unfold _reflect_table.
  erewrite and_then_ok; [|by eapply read_metadata].
  erewrite and_then_ok; [|by apply reflect_only_found].
  assert (held_ok (db_tables e s) (held_after name t held)) as Hheld'
    by by apply held_after_ok.
  erewrite and_then_ok; [|eapply read_metadata, facade_ok_frame; eauto].
  erewrite and_then_ok; [|apply automap_prepare_spec]. cbn [md_tables].
  set (ts := filter (λ t0, has_primary_key t0 = true) (held_after name t held)).
  assert (t ∈ ts) as Hin.
  { apply list_elem_of_filter. split; [done|]. by eapply held_after_has. }
  destruct (allocate_member ts h t Hin) as [a Ha].
  destruct (find_table_Some _ _ _ Hf) as [_ Hname]. rewrite Hname in Ha.
  destruct (allocate_lookup _ _ _ _ Ha) as (Hle & t' & Ht' & Hn' & Hheap).
  assert (t' = t) as ->.
  { apply list_elem_of_filter in Ht' as [_ Ht'].
    pose proof (proj1 (Forall_forall _ _) Hheld' t' Ht') as Hf'. simpl in Hf'.
    rewrite Hn', Hf in Hf'. by injection Hf' as ->. }
  destruct (mapped_class_kept a t Happ) as [Hkept Hkeys].
  destruct (alias_loop_apart a (columns t) Happ
              (map fst (cls_dict (mapped_class a t))) d
              (Some (MetaData e s (held_after name t held)))
              (snd (allocate ts h)) (tr ++ [ReflectOnly name])
              (mapped_class a t) Hheap Hkept Hkeys)
    as (h' & c' & Hloop & Hc' & _ & _ & Hnew).
  exists a, h', c'. split; [|split; [done|]].
  - erewrite try_except_ok; [done|].
    unfold classes_getitem. rewrite Ha.
    erewrite and_then_ok; [|done].
    erewrite and_then_ok; [|unfold class_keys, and_then, get; cbn [heap];
                            by rewrite Hheap].
    by erewrite and_then_ok.
  - intros C HC. apply Hnew; [|done].
    unfold mapped_class. cbn [cls_dict]. rewrite map_app. apply elem_of_app.
    right. rewrite map_map. cbn. by rewrite map_id.
Qed.

(** X9: The handle that lazy resolution builds for a table whose column names
    do not meet under any spelling: every column is reachable as written,
    in upper case and in lower case, and the three accessors are one and the
    same attribute object. *)
Theorem lazy_handle_aliases_columns e s w fuel name t :
  facade_ok e s w →
  find_table name (db_tables e s) = Some t →
  has_primary_key t = true →
  columns_apart (columns t) = true →
  dict w !! name = Some (VStr "None") →
  is_property name = false →
  ∃ a w', attr (S (S fuel)) name w = (Ok (VClass a), w')
          ∧ ∀ C n, C ∈ columns t → n ∈ aliases C →
                   class_getattr a n w' = (Ok (InstrumentedAttribute a C), w').
Proof.
  intros Hok Hf Hpk Happ Hd Hp. destruct w as [d m h tr].
  pose proof Hok as [_ _ _ (held & Hm & Hheld)]. simpl in Hm, Hd. subst m.
  destruct (reflect_table_found_aliased e s d held h tr fuel name t
              Hok Hheld Hf Hpk Happ) as (a & h' & c' & Hr & Hc' & Hal).
  exists a, (World (<[name := VClass a]> d)
               (Some (MetaData e s (held_after name t held))) h'
               (tr ++ [ReflectOnly name])).
  split.
  - rewrite getattr_S. erewrite try_except_ok; [reflexivity|].
    rewrite getattribute_unresolved by done.
    erewrite and_then_ok.
    + apply object_getattribute_dict; [done|]. apply lookup_insert_eq.
    + erewrite try_except_ok; [reflexivity|].
      erewrite and_then_ok; [|by erewrite call_reflect_table_eq].
      unfold setattr. by rewrite Hp.
  - intros C n HC Hn. unfold class_getattr, and_then, get. cbn [heap].
    by rewrite Hc', (Hal C HC n Hn).
Qed.

(** *** The handles stored by [reflect] *)

Lemma allocate_fresh ts h k a :
  (k, a) ∈ fst (allocate ts h) → (length h ≤ a)%nat.
Proof.
  revert h. induction ts as [|t ts IH]; intros h; simpl; [by intros ?%elem_of_nil|].
  specialize (IH (h ++ [mapped_class (length h) t])).
  destruct (allocate ts _) as [cs h']. simpl in *.
  intros [[= -> ->]|Hin]%elem_of_cons; [done|].
  apply IH in Hin. rewrite length_app in Hin. simpl in Hin. lia.
Qed.

Lemma materialize_loop_apart classes : ∀ d m h tr,
  (∀ k a n, (k, a) ∈ classes → n ∈ aliases k → is_property n = false) →
  (∀ k k' n, k ∈ map fst classes → k' ∈ map fst classes →
             n ∈ aliases k → n ∈ aliases k' → k = k') →
  ∃ d', for_each classes materialize (World d m h tr) = (Ok tt, World d' m h tr)
        ∧ (∀ k, k ∈ map fst classes →
                ∃ a, (k, a) ∈ classes
                     ∧ ∀ n, n ∈ aliases k → d' !! n = Some (VClass a))
        ∧ (∀ n, (∀ k, k ∈ map fst classes → n ∉ aliases k) → d' !! n = d !! n).
Proof.
  induction classes as [|[k a] classes IH]; intros d m h tr Hp Hapart.
  - exists d. split; [done|]. split; [by intros ? ?%elem_of_nil|done].
  - set (d1 := <[upper k := VClass a]> (<[lower k := VClass a]>
                 (<[k := VClass a]> d))).
    assert (∀ n, n ∈ aliases k → d1 !! n = Some (VClass a)) as Hd1.
    { intros n Hn. unfold d1. rewrite !lookup_insert.
      repeat case_decide; eauto. unfold aliases in Hn.
      repeat (apply elem_of_cons in Hn as [->|Hn]; [done|]).
      by apply elem_of_nil in Hn. }
    assert (∀ n, n ∉ aliases k → d1 !! n = d !! n) as Hd1'.
    { intros n Hn. unfold d1.
      rewrite !lookup_insert_ne; [done|..]; intros <-; apply Hn.
      - left.
      - right. left.
      - do 2 right. left. }
    destruct (IH d1 m h tr) as (d' & Hloop & Hkeys & Hframe).
    { intros k' a' n Hin. apply (Hp k' a'). by right. }
    { intros k1 k2 n Hk1 Hk2. apply Hapart; cbn [map fst]; by right. }
    exists d'. split; [|split].
    + cbn [for_each]. erewrite and_then_ok; [exact Hloop|].
      apply materialize_spec. intros n Hn. eapply Hp; [left|done].
    + intros k0 Hk0. destruct (decide (k0 ∈ map fst classes)) as [Hin|Hout].
      * destruct (Hkeys k0 Hin) as (a0 & Ha0 & Hv). exists a0.
        split; [by right|done].
      * cbn [map fst] in Hk0. apply elem_of_cons in Hk0 as [->|?]; [|done].
        exists a. split; [left|]. intros n Hn. rewrite Hframe; [by apply Hd1|].
        intros k' Hk' Hn'. apply Hout.
        assert (k = k') as -> by (eapply Hapart; [left|by right|done|done]).
        done.
    + intros n Hn. rewrite Hframe.
      * apply Hd1'. apply Hn. left.
      * intros k' Hk'. apply Hn. by right.
Qed.

(** X10: After [reflect()] on a catalog whose table names do not meet under any
    spelling, the three spellings of every table with a primary key hold
    one and the same handle, and it is a class built by this call: handles
    resolved before are no longer what the facade returns. *)
Theorem reflect_same_handle_under_all_spellings e s w fuel :
  facade_ok e s w →
  well_named (db_tables e s) = true →
  spellings_apart (map tname (db_tables e s)) = true →
  ∃ w', reflect (attr (S fuel)) w = (Ok tt, w')
        ∧ ∀ name t, find_table name (db_tables e s) = Some t →
                    has_primary_key t = true →
                    ∃ a, (length (heap w) ≤ a)%nat
                         ∧ ∀ n fuel', n ∈ aliases name →
                             attr (S fuel') n w' = (Ok (VClass a), w').
Proof.
  intros Hok Hwn Hsp. destruct w as [d m h tr].
  assert (∀ t n, t ∈ db_tables e s → n ∈ aliases (tname t) →
                 is_property n = false) as Hnames.
  { intros t n Ht Hn. unfold well_named in Hwn.
    rewrite forallb_forall in Hwn. apply list_elem_of_In, Hwn in Ht.
    rewrite forallb_forall in Ht. apply list_elem_of_In, Ht in Hn.
    by apply negb_true_iff in Hn. }
  pose proof Hok as [Hmd _ _ (held & Hm & Hheld)]. simpl in Hm, Hmd. subst m.
  set (fresh := filter (λ t, has_table (tname t) held = false) (db_tables e s)).
  set (ts := filter (λ t, has_primary_key t = true) (held ++ fresh)).
  assert (∀ t, t ∈ ts → t ∈ db_tables e s) as Hts.
  { intros t [_ [Ht|Ht]%elem_of_app]%list_elem_of_filter.
    - pose proof (proj1 (Forall_forall _ _) Hheld t Ht) as Hf. simpl in Hf.
      by apply find_table_Some in Hf as [? _].
    - by apply list_elem_of_filter in Ht as [_ ?]. }
  assert (∀ k, k ∈ map fst (fst (allocate ts h)) →
               ∃ t, t ∈ db_tables e s ∧ tname t = k) as Hkeys.
  { intros k Hk. rewrite allocate_keys in Hk.
    apply list_elem_of_fmap in Hk as (t & -> & Ht). eauto. }
  destruct (materialize_loop_apart (fst (allocate ts h)) d
              (Some (MetaData e s (held ++ fresh))) (snd (allocate ts h))
              (tr ++ [ReflectAll])) as (d' & Hloop & Hnew & _).
  { intros k a n Hin. apply (list_elem_of_fmap_2 fst) in Hin. simpl in Hin.
    destruct (Hkeys k Hin) as (t & Ht & <-). by apply Hnames. }
  { intros k k' n Hk Hk'. destruct (Hkeys k Hk) as (t1 & Ht1 & <-).
    destruct (Hkeys k' Hk') as (t2 & Ht2 & <-).
    apply (spellings_apart_spec _ _ _ _ Hsp); by apply list_elem_of_fmap_2. }
  eexists. split.
  - unfold reflect. erewrite and_then_ok; [|by eapply read_metadata].
    erewrite and_then_ok; [|apply reflect_all_spec].
    erewrite and_then_ok; [|by apply getattr_hit].
    erewrite and_then_ok; [|apply automap_prepare_spec]. exact Hloop.
  - intros name t Hf Hpk.
    destruct (find_table_Some _ _ _ Hf) as [Hdb Hname].
    assert (t ∈ ts) as Ht.
    { apply list_elem_of_filter. split; [done|]. apply elem_of_app.
      destruct (has_table name held) eqn:E.
      - left. apply has_table_true in E as (t' & Ht' & Hn').
        pose proof (proj1 (Forall_forall _ _) Hheld t' Ht') as Hf'. simpl in Hf'.
        rewrite Hn', Hf in Hf'. by injection Hf' as ->.
      - right. apply list_elem_of_filter. by rewrite Hname. }
    assert (name ∈ map fst (fst (allocate ts h))) as Hkey.
    { rewrite allocate_keys, <- Hname. by apply list_elem_of_fmap_2. }
    destruct (Hnew name Hkey) as (a & Hin & Hv).
    exists a. split; [by eapply allocate_fresh|].
    intros n fuel' Hn. apply getattr_hit; [|by apply Hv|done].
    eapply Hnames; [exact Hdb|by rewrite Hname].
Qed.

(** *** Binding again *)

Lemma methods_visible_spec w n :
  methods_visible w = true → n ∈ class_names → dict w !! n = None.
Proof.
  unfold methods_visible. rewrite forallb_forall. intros Hall Hn.
  apply list_elem_of_In, Hall in Hn. by destruct (dict w !! n).
Qed.

Lemma init_again create_engine e schema fuel d m h tr :
  d !! "_get_tables" = None →
  __init__ create_engine (attr (S fuel)) (BindEngine e) schema (World d m h tr)
  = register_slots (VNames (map tname (db_tables e (kept_schema schema))))
      (World (rebound_dict e (kept_schema schema) d)
             (Some (MetaData e (kept_schema schema) [])) h tr).
Proof.
  intros Hgt. unfold __init__.
  change (if bool_decide (schema = Some "None") then None else schema)
    with (kept_schema schema).
  generalize (kept_schema schema) as s. intros s.
  erewrite and_then_ok; [|reflexivity].
  erewrite and_then_ok; [|reflexivity].
  erewrite and_then_ok;
    [|apply getattr_hit; [reflexivity|cbn [dict]; by simplify_map_eq|reflexivity]].
  erewrite and_then_ok; [|reflexivity].
  erewrite and_then_ok; [|reflexivity].
  erewrite and_then_ok;
    [|apply getattr_hit; [reflexivity|cbn [dict]; by simplify_map_eq|reflexivity]].
  erewrite and_then_ok; [|reflexivity].
  erewrite and_then_ok;
    [|apply getattr_hit; [reflexivity|cbn [dict]; by simplify_map_eq|reflexivity]].
  erewrite and_then_ok; [|reflexivity].
  erewrite and_then_ok;
    [|apply getattr_method;
      [reflexivity|cbn [dict]; by simplify_map_eq
      |refine (bool_decide_eq_true_1 _ _); by vm_compute]].
  erewrite and_then_ok;
    [|apply getattr_hit; [reflexivity|cbn [dict]; by simplify_map_eq|reflexivity]].
  erewrite and_then_ok; [|reflexivity].
  erewrite and_then_ok; [|reflexivity].
  erewrite and_then_ok;
    [|apply getattr_hit; [reflexivity|cbn [dict]; by simplify_map_eq|reflexivity]].
  reflexivity.
Qed.

Lemma rebind_spec create_engine e schema fuel w :
  let s := kept_schema schema in
  methods_visible w = true →
  catalog_ok (db_tables e s) = true →
  ∃ d', __init__ create_engine (attr (S fuel)) (BindEngine e) schema w
        = (Ok tt, World d' (Some (MetaData e s [])) (heap w) (trace w))
        ∧ (∀ t n, t ∈ db_tables e s → n ∈ aliases (tname t) →
                  d' !! n = Some (VStr "None"))
        ∧ (∀ n, (∀ t, t ∈ db_tables e s → n ∉ aliases (tname t)) →
                d' !! n = rebound_dict e s (dict w) !! n).
Proof.
  intros s Hvis Hcat. destruct w as [d m h tr].
  rewrite init_again.
  2:{ apply (methods_visible_spec _ _ Hvis).
      refine (bool_decide_eq_true_1 _ _). by vm_compute. }
  fold s. unfold register_slots.
  destruct (register_loop (map tname (db_tables e s)) (rebound_dict e s d)
              (Some (MetaData e s [])) h tr) as (d' & Hloop & _ & Hnew & Hframe).
  { intros k n (t & -> & Ht)%list_elem_of_fmap Hn.
    by eapply own_name_not_property, catalog_ok_spec. }
  exists d'. split; [exact Hloop|]. split.
  - intros t n Ht Hn. eapply Hnew; [|done]. by apply list_elem_of_fmap_2.
  - intros n Hn. apply Hframe.
    intros k (t & -> & Ht)%list_elem_of_fmap. by apply Hn.
Qed.

Lemma rebound_ok e s d' d m h tr :
  methods_visible (World d m h tr) = true →
  catalog_ok (db_tables e s) = true →
  (∀ n, (∀ t, t ∈ db_tables e s → n ∉ aliases (tname t)) →
        d' !! n = rebound_dict e s d !! n) →
  facade_ok e s (World d' (Some (MetaData e s [])) h tr)
  ∧ d' !! "_bind" = Some (VEngine e)
  ∧ d' !! "_session" = Some VSession
  ∧ (∀ n, n ∉ own_names → (∀ t, t ∈ db_tables e s → n ∉ aliases (tname t)) →
          d' !! n = d !! n).
Proof.
  intros Hvis Hcat Hframe.
  assert (∀ n, n ∈ own_names → d' !! n = rebound_dict e s d !! n) as Hown.
  { intros n Hn. apply Hframe. intros t Ht Hal.
    by eapply catalog_ok_spec. }
  split; [split|split; [|split]]; cbn [dict meta].
  - rewrite Hown; [unfold rebound_dict; by simplify_map_eq|].
    refine (bool_decide_eq_true_1 _ _). by vm_compute.
  - rewrite Hown; [unfold rebound_dict; by simplify_map_eq|].
    refine (bool_decide_eq_true_1 _ _). by vm_compute.
  - rewrite Hown; [|refine (bool_decide_eq_true_1 _ _); by vm_compute].
    unfold rebound_dict. rewrite !lookup_insert_ne by done.
    apply (methods_visible_spec _ _ Hvis).
    refine (bool_decide_eq_true_1 _ _). by vm_compute.
  - exists []. split; [done|constructor].
  - rewrite Hown; [unfold rebound_dict; by simplify_map_eq|].
    refine (bool_decide_eq_true_1 _ _). by vm_compute.
  - rewrite Hown; [unfold rebound_dict; by simplify_map_eq|].
    refine (bool_decide_eq_true_1 _ _). by vm_compute.
  - intros n Hn Hal. rewrite Hframe by done. unfold rebound_dict.
    rewrite !lookup_insert_ne; [done|..]; intros <-; apply Hn;
      refine (bool_decide_eq_true_1 _ _); by vm_compute.
Qed.

(** X11: [inject] binds the object again, whatever it held: the slots of the new
    catalog are unresolved, the MetaData is new and empty, nothing is
    reflected and the classes built so far stay where they are.  A slot whose
    name is no spelling of a table of the new catalog is not removed: it
    keeps the value it had. *)
Theorem inject_rebinds create_engine e schema fuel w :
  let s := kept_schema schema in
  methods_visible w = true →
  catalog_ok (db_tables e s) = true →
  ∃ w', inject create_engine (attr (S fuel)) (BindEngine e) schema w = (Ok tt, w')
        ∧ facade_ok e s w'
        ∧ meta w' = Some (MetaData e s [])
        ∧ heap w' = heap w ∧ trace w' = trace w
        ∧ (∀ t n, t ∈ db_tables e s → n ∈ aliases (tname t) →
                  dict w' !! n = Some (VStr "None"))
        ∧ (∀ n, n ∉ own_names →
                (∀ t, t ∈ db_tables e s → n ∉ aliases (tname t)) →
                dict w' !! n = dict w !! n).
Proof.
  intros s Hvis Hcat.
  destruct (rebind_spec create_engine e schema fuel w Hvis Hcat)
    as (d' & Hinit & Hslots & Hframe). fold s in Hinit, Hslots, Hframe.
  destruct w as [d m h tr]. cbn [heap trace dict] in *.
  destruct (rebound_ok e s d' d m h tr Hvis Hcat Hframe)
    as (Hok & _ & _ & Hstale).
  exists (World d' (Some (MetaData e s [])) h tr).
  split; [|split; [exact Hok|split; [done|split; [done|split; [done|
           split; [exact Hslots|exact Hstale]]]]]].
  unfold inject. erewrite and_then_ok; cycle 1.
  { apply getattr_method; [reflexivity| |].
    - apply (methods_visible_spec _ _ Hvis).
      refine (bool_decide_eq_true_1 _ _). by vm_compute.
    - refine (bool_decide_eq_true_1 _ _). by vm_compute. }
  exact Hinit.
Qed.

(** X12: [refresh] on a bound facade binds it again to the engine and schema it
    has: every slot of the catalog is unresolved again and the MetaData is
    empty, so a handle obtained before is dropped; the next read of a table
    with a primary key reflects it anew and returns a class that did not
    exist before the refresh. *)
Theorem refresh_drops_handles create_engine e s fuel w :
  methods_visible w = true →
  catalog_ok (db_tables e s) = true →
  kept_schema s = s →
  dict w !! "_bind" = Some (VEngine e) →
  dict w !! "_schema" = Some (match s with Some x => VStr x | None => VNone end) →
  ∃ w', refresh create_engine (attr (S fuel)) w = (Ok tt, w')
        ∧ facade_ok e s w'
        ∧ heap w' = heap w ∧ trace w' = trace w
        ∧ (∀ t n, t ∈ db_tables e s → n ∈ aliases (tname t) →
                  dict w' !! n = Some (VStr "None"))
        ∧ (∀ name t, find_table name (db_tables e s) = Some t →
                     has_primary_key t = true →
                     ∃ a w'', attr (S (S fuel)) name w' = (Ok (VClass a), w'')
                              ∧ (length (heap w) ≤ a)%nat
                              ∧ trace w'' = trace w ++ [ReflectOnly name]).
Proof.
  intros Hvis Hcat Hkept Hb Hs.
  pose proof (rebind_spec create_engine e s fuel w Hvis) as Hre.
  cbv zeta in Hre. rewrite Hkept in Hre.
  destruct (Hre Hcat) as (d' & Hinit & Hslots & Hframe).
  destruct w as [d m h tr]. cbn [heap trace dict] in *.
  destruct (rebound_ok e s d' d m h tr Hvis Hcat Hframe) as (Hok & _ & _ & _).
  exists (World d' (Some (MetaData e s [])) h tr).
  split; [|split; [done|split; [done|split; [done|split; [done|]]]]].
  - unfold refresh.
    erewrite and_then_ok.
    2:{ apply getattr_method; [reflexivity| |].
        - apply (methods_visible_spec _ _ Hvis).
          refine (bool_decide_eq_true_1 _ _). by vm_compute.
        - refine (bool_decide_eq_true_1 _ _). by vm_compute. }
    erewrite and_then_ok; [|by apply getattr_hit].
    erewrite and_then_ok.
    2:{ apply getattr_hit; [reflexivity|exact Hs|].
        destruct s as [x|]; [|done]. cbn [is_placeholder].
        apply bool_decide_eq_false_2. intros ->.
        unfold kept_schema in Hkept. by rewrite bool_decide_eq_true_2 in Hkept. }
    cbn [as_bind]. erewrite and_then_ok; [|reflexivity].
    erewrite and_then_ok; [exact Hinit|]. by destruct s.
  - intros name t Hf Hpk.
    destruct (find_table_Some _ _ _ Hf) as [Hdb Hname].
    assert (name ∈ aliases (tname t)) as Hal by (rewrite Hname; left).
    destruct (resolve_slot reprlib_repr e s
                (World d' (Some (MetaData e s [])) h tr) fuel name t Hok Hf Hpk)
      as (a & w'' & Hr & _ & Htr & Hrange & _).
    + by apply Hslots with t.
    + by eapply own_name_not_property, catalog_ok_spec.
    + exists a, w''. split; [done|]. split; [|done]. cbn [heap] in Hrange. lia.
Qed.

End Coverage.

(** ** The further properties on the sample facades *)

Lemma mixed_world_ok dialect :
  facade_ok (mixed_engine dialect) None (mixed_world dialect).
Proof.
  split; [reflexivity..|]. exists []. split; [reflexivity|constructor].
Qed.

Lemma fallback_lower_then_upper_witness :
  (∃ a w', getattr_ short_repr 2 "USERS" (sample_world "mysql") = (Ok (VClass a), w')
           ∧ dict w' = <["USERS" := VClass a]> (dict (sample_world "mysql"))
           ∧ trace w' = trace (sample_world "mysql")
                        ++ [ReflectOnly "USERS"; ReflectOnly "users"])
  ∧ (∃ a w', getattr_ short_repr 2 "audit" (mixed_world "mysql") = (Ok (VClass a), w')
             ∧ dict w' = <["audit" := VClass a]> (dict (mixed_world "mysql"))
             ∧ trace w' = trace (mixed_world "mysql")
                          ++ [ReflectOnly "audit"; ReflectOnly "audit";
                              ReflectOnly "AUDIT"]).
Proof.
  split.
  - apply (proj1 (fallback_lower_then_upper short_repr (sample_engine "mysql") None
                    (sample_world "mysql") 0 "USERS" (sample_world_ok "mysql")
                    eq_refl eq_refl eq_refl) users); reflexivity.
  - apply (proj2 (fallback_lower_then_upper short_repr (mixed_engine "mysql") None
                    (mixed_world "mysql") 0 "audit" (mixed_world_ok "mysql")
                    eq_refl eq_refl eq_refl) audit); reflexivity.
Defined.

Lemma fallback_exhausted_witness :
  ∃ w', getattr_ short_repr 2 "orders" (mixed_world "mysql")
        = (Raise InvalidRequestError, w')
        ∧ dict w' = dict (mixed_world "mysql")
        ∧ heap w' = heap (mixed_world "mysql")
        ∧ trace w' = trace (mixed_world "mysql")
                     ++ [ReflectOnly "orders"; ReflectOnly "orders";
                         ReflectOnly "ORDERS"].
Proof.
  apply (fallback_exhausted short_repr (mixed_engine "mysql") None
           (mixed_world "mysql") 0 "orders" (mixed_world_ok "mysql"));
    reflexivity.
Defined.

Lemma failed_resolution_is_retried_witness :
  ∃ w1 w2,
    getattr_ short_repr 2 "events" (sample_world "mysql")
    = (Raise (ValueError (missing_primary_key_message "events"
                            "['users', 'events']")), w1)
    ∧ dict w1 !! "events" = Some (VStr "None")
    ∧ getattr_ short_repr 2 "events" w1
      = (Raise (ValueError (missing_primary_key_message "events"
                              "['users', 'events']")), w2)
    ∧ dict w2 = dict (sample_world "mysql")
    ∧ trace w2 = trace (sample_world "mysql")
                 ++ [ReflectOnly "events"; ReflectOnly "events"].
Proof.
  apply (failed_resolution_is_retried short_repr (sample_engine "mysql") None
           (sample_world "mysql") 0 "events" events (sample_world_ok "mysql"));
    reflexivity.
Defined.

Lemma construction_refuses_property_names_witness :
  ∃ msg w, __init__ sample_create_engine (getattr_ short_repr 1)
             (BindEngine clashing_engine) None empty_world
           = (Raise (AttributeError msg), w)
           ∧ trace w = [] ∧ heap w = [].
Proof.
  apply (construction_refuses_property_names short_repr sample_create_engine
           clashing_engine None 0).
  reflexivity.
Defined.

Lemma construction_round_trip_witness :
  ∃ w, __init__ sample_create_engine (getattr_ short_repr 1)
         (BindEngine (sample_engine "mysql")) (Some "None") empty_world
       = (Ok tt, w)
       ∧ trace w = [] ∧ heap w = []
       ∧ getattr_ short_repr 2 "bind" w = (Ok (VEngine (sample_engine "mysql")), w)
       ∧ getattr_ short_repr 2 "schema" w = (Ok VNone, w)
       ∧ getattr_ short_repr 1 "tables" w = (Ok (VNames ["users"; "events"]), w)
       ∧ (∀ t n, t ∈ [users; events] → n ∈ aliases (tname t) →
                 dict w !! n = Some (VStr "None")).
Proof.
  apply (construction_round_trip short_repr sample_create_engine
           (sample_engine "mysql") (Some "None") 0).
  reflexivity.
Defined.

Lemma insert_outcome_witness :
  (∃ x, insert (getattr_ short_repr 1) (VClass 0) (PyList [[("id", "1")]]) true None
          (resolved_world "mysql") = (Raise x, resolved_world "mysql"))
  ∨ (∃ p rows,
       validate (PyList [[("id", "1")]]) (resolved_world "mysql")
       = (Ok rows, resolved_world "mysql")
       ∧ insert (getattr_ short_repr 1) (VClass 0) (PyList [[("id", "1")]]) true None
           (resolved_world "mysql")
         = (Ok tt, executed (resolved_world "mysql") (Insert "users" [p] rows))).
Proof.
  apply (insert_outcome short_repr (sample_engine "mysql") 0 users_class
           (resolved_world "mysql") 0 (PyList [[("id", "1")]]) true None).
  apply resolved_world_ready.
Defined.

Lemma insert_without_ignore_witness :
  insert (getattr_ short_repr 1) (VClass 0) (DataFrame ["id"] [["1"]; ["2"]]) false
    (Some "ix_users_name") (resolved_world "oracle")
  = (Ok tt, executed (resolved_world "oracle")
              (Insert "users" [""] [[("id", "1")]; [("id", "2")]])).
Proof.
  apply (insert_without_ignore short_repr (sample_engine "oracle") 0 users_class
           (resolved_world "oracle") 0 (DataFrame ["id"] [["1"]; ["2"]])
           [[("id", "1")]; [("id", "2")]] (Some "ix_users_name")).
  - apply resolved_world_ready.
  - reflexivity.
  - refine (bool_decide_eq_true_1 _ _). vm_compute. reflexivity.
Defined.

Lemma insert_input_formats_witness :
  insert (getattr_ short_repr 1) (VClass 0) (PyOther "{'id': 1}") true None
    (resolved_world "mysql")
  = (Raise (ValueError "The {'id': 1} must be list of dicts type!"),
     resolved_world "mysql")
  ∧ insert (getattr_ short_repr 1) (VClass 0) (DataFrame ["id"] [["1"]; ["2"]]) true
      None (resolved_world "mysql")
    = insert (getattr_ short_repr 1) (VClass 0)
        (PyList [[("id", "1")]; [("id", "2")]]) true None (resolved_world "mysql").
Proof.
  split.
  - apply (proj1 (insert_input_formats (getattr_ short_repr 1) (VClass 0) true None
                    (resolved_world "mysql")) "{'id': 1}").
  - apply (proj2 (insert_input_formats (getattr_ short_repr 1) (VClass 0) true None
                    (resolved_world "mysql")) ["id"] [["1"]; ["2"]]).
    reflexivity.
Defined.

Lemma lazy_handle_aliases_columns_witness :
  ∃ a w', getattr_ short_repr 2 "users" (sample_world "mysql") = (Ok (VClass a), w')
          ∧ ∀ C n, C ∈ ["id"; "name"] → n ∈ aliases C →
                   class_getattr a n w' = (Ok (InstrumentedAttribute a C), w').
Proof.
  apply (lazy_handle_aliases_columns short_repr (sample_engine "mysql") None
           (sample_world "mysql") 0 "users" users (sample_world_ok "mysql"));
    reflexivity.
Defined.

Lemma reflect_same_handle_under_all_spellings_witness :
  ∃ w', reflect (getattr_ short_repr 1) (resolved_world "mysql") = (Ok tt, w')
        ∧ ∀ name t, find_table name [users; events] = Some t →
                    has_primary_key t = true →
                    ∃ a, (length (heap (resolved_world "mysql")) ≤ a)%nat
                         ∧ ∀ n fuel', n ∈ aliases name →
                             getattr_ short_repr (S fuel') n w' = (Ok (VClass a), w').
Proof.
  apply (reflect_same_handle_under_all_spellings short_repr (sample_engine "mysql")
           None (resolved_world "mysql") 0).
  - split; [reflexivity..|]. exists [users]. split; [reflexivity|].
    repeat constructor.
  - reflexivity.
  - reflexivity.
Defined.

Lemma inject_rebinds_witness :
  ∃ w', inject sample_create_engine (getattr_ short_repr 1)
          (BindEngine (mixed_engine "sqlite")) None (resolved_world "mysql")
        = (Ok tt, w')
        ∧ facade_ok (mixed_engine "sqlite") None w'
        ∧ meta w' = Some (MetaData (mixed_engine "sqlite") None [])
        ∧ heap w' = heap (resolved_world "mysql")
        ∧ trace w' = trace (resolved_world "mysql")
        ∧ (∀ t n, t ∈ [orders; audit] → n ∈ aliases (tname t) →
                  dict w' !! n = Some (VStr "None"))
        ∧ (∀ n, n ∉ own_names →
                (∀ t, t ∈ [orders; audit] → n ∉ aliases (tname t)) →
                dict w' !! n = dict (resolved_world "mysql") !! n).
Proof.
  apply (inject_rebinds short_repr sample_create_engine (mixed_engine "sqlite") None
           0 (resolved_world "mysql")); reflexivity.
Defined.

Lemma refresh_drops_handles_witness :
  ∃ w', refresh sample_create_engine (getattr_ short_repr 1) (resolved_world "mysql")
        = (Ok tt, w')
        ∧ facade_ok (sample_engine "mysql") None w'
        ∧ heap w' = heap (resolved_world "mysql")
        ∧ trace w' = trace (resolved_world "mysql")
        ∧ (∀ t n, t ∈ [users; events] → n ∈ aliases (tname t) →
                  dict w' !! n = Some (VStr "None"))
        ∧ (∀ name t, find_table name [users; events] = Some t →
                     has_primary_key t = true →
                     ∃ a w'', getattr_ short_repr 2 name w' = (Ok (VClass a), w'')
                              ∧ (length (heap (resolved_world "mysql")) ≤ a)%nat
                              ∧ trace w'' = trace (resolved_world "mysql")
                                            ++ [ReflectOnly name]).
Proof.
  apply (refresh_drops_handles short_repr sample_create_engine
           (sample_engine "mysql") None 0 (resolved_world "mysql")); reflexivity.
Defined.
